(** * Plan2ics: schedule table to calendar events

    A shallow embedding of [Release/Ver1/Plan2ics.py] (class
    [ScheduleConverter]): the parser of the schedule table
    ([parse_schedule]), the week grouping of [display_weeks], and the event
    builder and export of [generate_ics].

    Conventions of the embedding.
    - A Python [str] is the list of its code points ([pystr]).
    - The Unicode character tables that [str.strip], [str.lower], [int] and
      the [re] classes [\s], [\d], [\w] consult are not part of the program;
      they are a parameter ([ucd]).  [latin1] gives them for the code
      points below 256 and is used to run the model on concrete rows.
    - A Python [dict] is an association list in insertion order whose keys
      are pairwise distinct ([dict_set] keeps the position of a key that is
      already there, as Python does).
    - A [datetime.date] is represented by its proleptic Gregorian ordinal
      ([date.toordinal()]); the constructor [datetime.date(y, m, d)] is
      [date_new], which is [None] where Python raises [ValueError].
    - The parsed document is a tree of tags and strings ([node]) on which
      BeautifulSoup's [find], [find_all] and [get_text] are defined.
    - Message boxes and the file written are returned as a list of
      effects. *)

From Stdlib Require Import List ZArith NArith Bool Lia String Ascii DecimalString.
From Stdlib Require Import Sorting.Sorted Sorting.Permutation.
Import ListNotations.

Local Open Scope Z_scope.

(* ================================================================== *)
(** ** Python strings *)

Module PyStr.

(** A [str]: the sequence of its Unicode code points. *)
Definition pystr : Type := list N.

(** A string literal of the source whose characters are all ASCII. *)
Fixpoint lit (s : string) : pystr :=
  match s with
  | EmptyString => []
  | String c s' => N_of_ascii c :: lit s'
  end.

Fixpoint eqb (a b : pystr) : bool :=
  match a, b with
  | [], [] => true
  | x :: a', y :: b' => N.eqb x y && eqb a' b'
  | _, _ => false
  end.

Lemma eqb_spec (a b : pystr) : reflect (a = b) (eqb a b).
Proof.
  revert b; induction a as [|x a IH]; intros [|y b]; simpl;
    try (constructor; congruence).
  destruct (N.eqb_spec x y) as [->|ne]; simpl.
  - destruct (IH b) as [->|ne]; constructor; congruence.
  - constructor; congruence.
Qed.

(** [x in s] for a set (or list) of strings. *)
Definition mem (x : pystr) (s : list pystr) : bool := existsb (eqb x) s.

(** The Unicode tables used by the program, as Python reads them:
    [isspace] is [str.isspace] on one character (also the class [\s]),
    [decimal] gives the value of a decimal digit (the class [\d], read by
    [int]), [isword] is the class [\w], and [lower] is [str.lower]. *)
Record ucd : Type := Ucd {
  isspace : N -> bool;
  decimal : N -> option Z;
  isword : N -> bool;
  lower : pystr -> pystr
}.

Section WithTables.
Variable U : ucd.

Fixpoint lstrip (s : pystr) : pystr :=
  match s with
  | [] => []
  | c :: s' => if isspace U c then lstrip s' else s
  end.

Definition rstrip (s : pystr) : pystr := rev (lstrip (rev s)).

(** [s.strip()] *)
Definition strip (s : pystr) : pystr := rstrip (lstrip s).

Definition isdigit (c : N) : bool :=
  match decimal U c with Some _ => true | None => false end.

(** [int(s)] for a string of decimal digits, most significant first. *)
Definition int_of (s : pystr) : Z :=
  fold_left (fun acc c =>
               10 * acc + match decimal U c with Some v => v | None => 0 end)
            s 0.

(** The longest prefix of characters in a class, and what follows it. *)
Fixpoint span (p : N -> bool) (s : pystr) : pystr * pystr :=
  match s with
  | [] => ([], [])
  | c :: s' =>
      if p c then let '(a, b) := span p s' in (c :: a, b) else ([], s)
  end.

(** [\w+] at the start of [s]: greedy, nothing follows it in the pattern,
    so the longest run of word characters is the match. *)
Definition match_word (s : pystr) : option pystr :=
  match fst (span (isword U) s) with
  | [] => None
  | w => Some w
  end.

(** [\s*(\w+)] at the start of [s]: the star is greedy, and gives
    characters back one at a time when the word does not match. *)
Fixpoint match_spaces_word (s : pystr) : option pystr :=
  match s with
  | c :: s' =>
      if isspace U c then
        match match_spaces_word s' with
        | Some w => Some w
        | None => match_word s
        end
      else match_word s
  | [] => match_word s
  end.

(** [\.\s*(\w+)] at the start of [s]. *)
Definition match_dot_rest (s : pystr) : option pystr :=
  match s with
  | c :: s' => if N.eqb c 46 then match_spaces_word s' else None
  | [] => None
  end.

(** [re.match(r'(\d{1,2})\.\s*(\w+)', s)]: the two groups of the match.
    [\d{1,2}] first tries two digits and falls back to one. *)
Definition match_date (s : pystr) : option (pystr * pystr) :=
  match s with
  | d1 :: s1 =>
      if isdigit d1 then
        let one :=
          match match_dot_rest s1 with
          | Some w => Some ([d1], w)
          | None => None
          end in
        match s1 with
        | d2 :: s2 =>
            if isdigit d2 then
              match match_dot_rest s2 with
              | Some w => Some ([d1; d2], w)
              | None => one
              end
            else one
        | [] => one
        end
      else None
  | [] => None
  end.

End WithTables.

(** [s.split('\n')]: always at least one piece. *)
Fixpoint split_lines (s : pystr) : list pystr :=
  match s with
  | [] => [[]]
  | c :: s' =>
      if N.eqb c 10 then [] :: split_lines s'
      else match split_lines s' with
           | l :: ls => (c :: l) :: ls
           | [] => [[c]]
           end
  end.

(** The tables for the code points below 256.  Code points from 256 on
    are classed as neither space, digit nor word character and are left
    unchanged by [lower]; the instance is only used on Latin-1 text. *)
Definition latin1_isspace (c : N) : bool :=
  ((9 <=? c) && (c <=? 13) || (28 <=? c) && (c <=? 32)
   || (c =? 133) || (c =? 160))%N.

Definition latin1_decimal (c : N) : option Z :=
  if ((48 <=? c) && (c <=? 57))%N then Some (Z.of_N c - 48) else None.

Definition latin1_isword (c : N) : bool :=
  ((48 <=? c) && (c <=? 57) || (65 <=? c) && (c <=? 90) || (c =? 95)
   || (97 <=? c) && (c <=? 122)
   || (c =? 170) || (c =? 178) || (c =? 179) || (c =? 181)
   || (c =? 185) || (c =? 186) || (188 <=? c) && (c <=? 190)
   || (192 <=? c) && (c <=? 255) && negb (c =? 215) && negb (c =? 247))%N.

Definition latin1_lower_char (c : N) : N :=
  (if (65 <=? c) && (c <=? 90)
      || (192 <=? c) && (c <=? 222) && negb (c =? 215)
   then c + 32 else c)%N.

Definition latin1 : ucd :=
  Ucd latin1_isspace latin1_decimal latin1_isword (map latin1_lower_char).

End PyStr.

Import PyStr.

(* ================================================================== *)
(** ** Python dictionaries *)

(** Keys with a decidable equality ([==] and [hash] of the source's key
    types: [int], [str], [datetime.date]). *)
Class EqKey (K : Type) : Type := {
  keqb : K -> K -> bool;
  keqb_spec : forall a b : K, reflect (a = b) (keqb a b)
}.

#[export] Instance EqKey_Z : EqKey Z := {| keqb := Z.eqb; keqb_spec := Z.eqb_spec |}.
#[export] Instance EqKey_pystr : EqKey pystr :=
  {| keqb := PyStr.eqb; keqb_spec := PyStr.eqb_spec |}.

Module Dict.
Section Ops.
Context {K V : Type} `{EqKey K}.

(** Insertion-ordered association list; [wf] says the keys are distinct. *)
Definition t : Type := list (K * V).

Definition empty : t := [].

Definition keys (d : t) : list K := map fst d.
Definition values (d : t) : list V := map snd d.

Definition wf (d : t) : Prop := NoDup (keys d).

(** [d.get(k)] *)
Fixpoint get (k : K) (d : t) : option V :=
  match d with
  | [] => None
  | (k', v) :: d' => if keqb k k' then Some v else get k d'
  end.

(** [k in d] *)
Definition contains (k : K) (d : t) : bool :=
  match get k d with Some _ => true | None => false end.

(** [d[k] = v]: an existing key keeps its place, a new one goes last. *)
Fixpoint set (k : K) (v : V) (d : t) : t :=
  match d with
  | [] => [(k, v)]
  | (k', v') :: d' =>
      if keqb k k' then (k', v) :: d' else (k', v') :: set k v d'
  end.

End Ops.
Arguments t : clear implicits.
End Dict.

(* ================================================================== *)
(** ** Calendar dates ([datetime.date]) *)

Module Date.

(** A date, as its proleptic Gregorian ordinal: 0001-01-01 is day 1. *)
Definition date : Type := Z.

Definition is_leap (year : Z) : bool :=
  (year mod 4 =? 0) && (negb (year mod 100 =? 0) || (year mod 400 =? 0)).

Definition days_in_month (year month : Z) : Z :=
  match month with
  | 2 => if is_leap year then 29 else 28
  | 4 | 6 | 9 | 11 => 30
  | 1 | 3 | 5 | 7 | 8 | 10 | 12 => 31
  | _ => -1
  end.

Definition days_before_year (year : Z) : Z :=
  let y := year - 1 in y * 365 + y / 4 - y / 100 + y / 400.

Definition days_before_month (year month : Z) : Z :=
  match month with
  | 1 => 0 | 2 => 31 | 3 => 59 | 4 => 90 | 5 => 120 | 6 => 151
  | 7 => 181 | 8 => 212 | 9 => 243 | 10 => 273 | 11 => 304 | 12 => 334
  | _ => -1
  end + (if (2 <? month) && is_leap year then 1 else 0).

Definition ymd2ord (year month day : Z) : Z :=
  days_before_year year + days_before_month year month + day.

(** [datetime.date(year, month, day)]; [None] stands for [ValueError]. *)
Definition date_new (year month day : Z) : option date :=
  if (1 <=? year) && (year <=? 9999)
     && (1 <=? month) && (month <=? 12)
     && (1 <=? day) && (day <=? days_in_month year month)
  then Some (ymd2ord year month day)
  else None.

(** [d.weekday()]: Monday is 0, Sunday is 6. *)
Definition weekday (d : date) : Z := (d + 6) mod 7.

(** [d - datetime.timedelta(days=n)] and [d + datetime.timedelta(days=n)] *)
Definition sub_days (d : date) (n : Z) : date := d - n.
Definition add_days (d : date) (n : Z) : date := d + n.

End Date.

Import Date.

(* ================================================================== *)
(** ** Exceptions *)

Inductive exn : Type :=
| Exception (msg : string)
| IndexError
| KeyError
| ValueError
| OSError (msg : string).

(** [str(e)] *)
Definition exn_str (e : exn) : string :=
  match e with
  | Exception msg | OSError msg => msg
  | IndexError => "list index out of range"
  | KeyError => "key"
  | ValueError => "value"
  end.

(** A computation that returns a value or raises. *)
Definition result (A : Type) : Type := (exn + A)%type.

Definition ret {A : Type} (a : A) : result A := inr a.
Definition raise {A : Type} (e : exn) : result A := inl e.

Definition bind {A B : Type} (m : result A) (k : A -> result B) : result B :=
  match m with
  | inl e => inl e
  | inr a => k a
  end.

Notation "x <- m ;; k" := (bind m (fun x => k))
  (at level 61, m at next level, right associativity).

(** [l[i]] *)
Definition getitem {A : Type} (l : list A) (i : nat) : result A :=
  match nth_error l i with
  | Some a => ret a
  | None => raise IndexError
  end.

(* ================================================================== *)
(** ** The parsed document (BeautifulSoup) *)

Module Soup.

Local Unset Elimination Schemes.
Inductive node : Type :=
| NavigableString (s : pystr)
| Tag (name : string) (children : list node).
Local Set Elimination Schemes.

(** Induction over the tree, with the hypothesis for every child. *)
Fixpoint node_rect' (P : node -> Type) (Q : list node -> Type)
    (Hs : forall s, P (NavigableString s))
    (Ht : forall nm ch, Q ch -> P (Tag nm ch))
    (Hnil : Q [])
    (Hcons : forall n ch, P n -> Q ch -> Q (n :: ch))
    (n : node) : P n :=
  match n with
  | NavigableString s => Hs s
  | Tag nm ch =>
      Ht nm ch
        ((fix go (l : list node) : Q l :=
            match l with
            | [] => Hnil
            | x :: l' => Hcons x l' (node_rect' P Q Hs Ht Hnil Hcons x) (go l')
            end) ch)
  end.

(** [tag.get_text()]: the strings below the tag, concatenated. *)
Fixpoint get_text (n : node) : pystr :=
  match n with
  | NavigableString s => s
  | Tag _ ch => flat_map get_text ch
  end.

Definition named (names : list string) (n : node) : bool :=
  match n with
  | NavigableString _ => false
  | Tag nm _ => existsb (String.eqb nm) names
  end.

(** The node and everything below it, in document order, restricted to the
    tags with one of the given names. *)
Fixpoint matching (names : list string) (n : node) : list node :=
  match n with
  | NavigableString _ => []
  | Tag nm ch =>
      (if existsb (String.eqb nm) names then [n] else [])
        ++ flat_map (matching names) ch
  end.

Definition children (n : node) : list node :=
  match n with
  | NavigableString _ => []
  | Tag _ ch => ch
  end.

(** [tag.find_all(names)]: searches the descendants of the tag. *)
Definition find_all (names : list string) (n : node) : list node :=
  flat_map (matching names) (children n).

(** [tag.find(name)]: the first descendant with that name, or [None]. *)
Definition find (name : string) (n : node) : option node :=
  match find_all [name] n with
  | [] => None
  | t :: _ => Some t
  end.

(** [n] occurs strictly below [t]. *)
Inductive descendant (n : node) : node -> Prop :=
| desc_child nm ch : In n ch -> descendant n (Tag nm ch)
| desc_below nm ch m : In m ch -> descendant n m -> descendant n (Tag nm ch).

End Soup.

Import Soup.

(* ================================================================== *)
(** ** The schedule table and the parser ([parse_schedule]) *)

(** The value stored for a date: [{'day': ..., 'subjects': {period: subject}}]. *)
Record day_data : Type := DayData {
  day : pystr;
  subjects : Dict.t Z pystr
}.

(** [self.schedule_data] *)
Definition schedule : Type := Dict.t date day_data.

(** [self.ignore_subjects] *)
Definition ignore_subjects : list pystr :=
  [lit "#NV"; lit "Frei"; lit "Betrieb"; lit "Feiertag"; lit ""; lit " "].

(** [month_map]; the third key is 'mär', with U+00E4. *)
Definition month_map : Dict.t pystr Z :=
  [(lit "jan", 1); (lit "feb", 2); ([109; 228; 114]%N, 3); (lit "apr", 4);
   (lit "mai", 5); (lit "jun", 6); (lit "jul", 7); (lit "aug", 8);
   (lit "sep", 9); (lit "okt", 10); (lit "nov", 11); (lit "dez", 12)].

(** [month_map.get(month_name[:3], 1)] *)
Definition month_of (month_name : pystr) : Z :=
  match Dict.get (firstn 3 month_name) month_map with
  | Some m => m
  | None => 1
  end.

(** [2025 if month_num >= 8 else 2026] *)
Definition year_of (month_num : Z) : Z :=
  if 8 <=? month_num then 2025 else 2026.

Definition cell_names : list string := ["td"; "th"]%string.

Section Parser.
Variable U : ucd.

(** The first loop of [parse_schedule]: is the row kept in [data_rows]? *)
Definition is_data_row (row : node) : result bool :=
  let cells := find_all cell_names row in
  if (12 <=? List.length cells)%nat then
    c0 <- getitem cells 0 ;;
    match strip U (get_text c0) with
    | [] => ret false
    | _ :: _ =>
        c0' <- getitem cells 0 ;;
        let date_text := strip U (get_text c0') in
        match match_date U date_text with
        | Some _ => ret true
        | None => ret false
        end
    end
  else ret false.

Fixpoint data_rows_of (rows : list node) : result (list node) :=
  match rows with
  | [] => ret []
  | row :: rows' =>
      keep <- is_data_row row ;;
      rest <- data_rows_of rows' ;;
      ret (if keep then row :: rest else rest)
  end.

(** [[line.strip() for line in subject_text.split('\n') if line.strip()]] *)
Definition subject_lines_of (subject_text : pystr) : list pystr :=
  flat_map (fun line =>
              match strip U line with
              | [] => []
              | _ :: _ => [strip U line]
              end)
           (split_lines subject_text).

(** One turn of the loop over the columns 2 to 11. *)
Definition subject_step (cells : list node) (day_schedule : Dict.t Z pystr)
    (i : nat) : result (Dict.t Z pystr) :=
  if (i <? List.length cells)%nat then
    c <- getitem cells i ;;
    let subject_text := strip U (get_text c) in
    let subject_lines := subject_lines_of subject_text in
    match subject_lines with
    | first :: _ =>
        if negb (mem first ignore_subjects) then
          let period := Z.of_nat i - 1 in
          ret (Dict.set period first day_schedule)
        else ret day_schedule
    | [] => ret day_schedule
    end
  else ret day_schedule.

Fixpoint subject_loop (cells : list node) (columns : list nat)
    (day_schedule : Dict.t Z pystr) : result (Dict.t Z pystr) :=
  match columns with
  | [] => ret day_schedule
  | i :: columns' =>
      day_schedule' <- subject_step cells day_schedule i ;;
      subject_loop cells columns' day_schedule'
  end.

(** The body of the second loop: one data row against the table so far.
    [continue] returns the table unchanged. *)
Definition parse_row (schedule_data : schedule) (row : node) : result schedule :=
  let cells := find_all cell_names row in
  if (List.length cells <? 12)%nat then ret schedule_data
  else
    c0 <- getitem cells 0 ;;
    let date_text := strip U (get_text c0) in
    c1 <- getitem cells 1 ;;
    let day_text := strip U (get_text c1) in
    match match_date U date_text with
    | None => ret schedule_data
    | Some (group1, group2) =>
        let day_num := int_of U group1 in
        let month_name := lower U group2 in
        let month_num := month_of month_name in
        let year := year_of month_num in
        match date_new year month_num day_num with
        | None => ret schedule_data
        | Some date_obj =>
            day_schedule <- subject_loop cells (seq 2 10) Dict.empty ;;
            match day_schedule with
            | _ :: _ =>
                ret (Dict.set date_obj (DayData day_text day_schedule)
                              schedule_data)
            | [] => ret schedule_data
            end
        end
    end.

Fixpoint parse_rows (schedule_data : schedule) (rows : list node)
    : result schedule :=
  match rows with
  | [] => ret schedule_data
  | row :: rows' =>
      schedule_data' <- parse_row schedule_data row ;;
      parse_rows schedule_data' rows'
  end.

(** [parse_schedule(soup)], run on [self.schedule_data]; the result is the
    table afterwards.  The only [raise] comes before the table is touched. *)
Definition parse_schedule (soup : node) (schedule_data : schedule)
    : result schedule :=
  match find "table" soup with
  | None => raise (Exception "No table found in HTML file")
  | Some table =>
      let rows := find_all ["tr"%string] table in
      data_rows <- data_rows_of rows ;;
      parse_rows schedule_data data_rows
  end.

End Parser.

(* ================================================================== *)
(** ** [sorted] *)

Fixpoint insert_sorted (x : Z) (l : list Z) : list Z :=
  match l with
  | [] => [x]
  | y :: l' => if x <=? y then x :: l else y :: insert_sorted x l'
  end.

(** [sorted(l)] on integers and on dates (compared by their ordinals). *)
Definition sorted (l : list Z) : list Z := fold_right insert_sorted [] l.

(* ================================================================== *)
(** ** Week grouping ([display_weeks]) *)

(** [date_obj - datetime.timedelta(days=date_obj.weekday())] *)
Definition monday_of (date_obj : date) : date :=
  sub_days date_obj (weekday date_obj).

(** One turn of the grouping loop: create the bucket of the date's Monday
    when it is missing, then append the date to it. *)
Definition group_step (weeks : Dict.t date (list date)) (date_obj : date)
    : result (Dict.t date (list date)) :=
  let monday := monday_of date_obj in
  let weeks1 :=
    if negb (Dict.contains monday weeks) then Dict.set monday [] weeks
    else weeks in
  match Dict.get monday weeks1 with
  | Some bucket => ret (Dict.set monday (bucket ++ [date_obj]) weeks1)
  | None => raise KeyError
  end.

Fixpoint group_loop (weeks : Dict.t date (list date)) (dates : list date)
    : result (Dict.t date (list date)) :=
  match dates with
  | [] => ret weeks
  | date_obj :: dates' =>
      weeks' <- group_step weeks date_obj ;;
      group_loop weeks' dates'
  end.

(** The dict [weeks] of [display_weeks]. *)
Definition group_weeks (schedule_data : schedule)
    : result (Dict.t date (list date)) :=
  group_loop Dict.empty (sorted (Dict.keys schedule_data)).

(** The subjects of a week, collected for its label. *)
Fixpoint week_lookup (schedule_data : schedule) (week_dates : list date)
    : result (list pystr) :=
  match week_dates with
  | [] => ret []
  | date_obj :: rest =>
      match Dict.get date_obj schedule_data with
      | Some dd =>
          more <- week_lookup schedule_data rest ;;
          ret (Dict.values (subjects dd) ++ more)
      | None => raise KeyError
      end
  end.

(** One turn of the check-box loop.  The widgets and their labels are left
    out; what can raise while they are built is kept. *)
Definition week_var_step (schedule_data : schedule)
    (weeks : Dict.t date (list date)) (week_vars : Dict.t date bool)
    (monday : date) : result (Dict.t date bool) :=
  match Dict.get monday weeks with
  | None => raise KeyError
  | Some bucket =>
      let week_dates := sorted bucket in
      _ <- getitem week_dates 0 ;;
      _ <- week_lookup schedule_data week_dates ;;
      ret (Dict.set monday true week_vars)
  end.

Fixpoint week_var_loop (schedule_data : schedule)
    (weeks : Dict.t date (list date)) (week_vars : Dict.t date bool)
    (mondays : list date) : result (Dict.t date bool) :=
  match mondays with
  | [] => ret week_vars
  | monday :: rest =>
      week_vars' <- week_var_step schedule_data weeks week_vars monday ;;
      week_var_loop schedule_data weeks week_vars' rest
  end.

(** [display_weeks()]: the new [self.week_vars], every week ticked. *)
Definition display_weeks (schedule_data : schedule) : result (Dict.t date bool) :=
  weeks <- group_weeks schedule_data ;;
  week_var_loop schedule_data weeks Dict.empty (sorted (Dict.keys weeks)).

(* ================================================================== *)
(** ** Time slots, events and alarms *)

Record time : Type := Time { hour : Z; minute : Z }.

Definition digit_of (c : ascii) : option Z :=
  let n := Z.of_N (N_of_ascii c) in
  if (48 <=? n) && (n <=? 57) then Some (n - 48) else None.

(** [datetime.datetime.strptime(s, "%H:%M").time()] on the form [HH:MM]
    the tables use (two digits each; the format would also take one). *)
Definition strptime_HM (s : string) : result time :=
  match s with
  | String h1 (String h2 (String sep (String m1 (String m2 EmptyString)))) =>
      match digit_of h1, digit_of h2, digit_of m1, digit_of m2 with
      | Some a, Some b, Some c, Some d =>
          if Ascii.eqb sep ":" && (10 * a + b <? 24) && (10 * c + d <? 60)
          then ret (Time (10 * a + b) (10 * c + d))
          else raise ValueError
      | _, _, _, _ => raise ValueError
      end
  | _ => raise ValueError
  end.

(** [self.weekday_times] *)
Definition weekday_times : Dict.t Z (string * string) :=
  [(1, ("08:00", "09:30")); (3, ("09:45", "11:15")); (5, ("11:25", "12:10"));
   (6, ("12:55", "14:25")); (8, ("14:35", "15:20")); (9, ("15:30", "17:00"))]%string.

(** [self.friday_times] *)
Definition friday_times : Dict.t Z (string * string) :=
  [(1, ("08:00", "09:30")); (3, ("09:45", "11:15")); (5, ("11:30", "13:00"));
   (7, ("13:00", "14:30"))]%string.

(** A wall-clock instant of the zone Europe/Berlin
    ([timezone.localize(datetime.datetime.combine(d, t))]). *)
Record datetime : Type := DateTime { dt_date : date; dt_time : time }.

Definition minute_of_day (t : time) : Z := 60 * hour t + minute t.

(** [(a - b).total_seconds()].  The instants the program subtracts lie on
    one date, at 08:00 or later, where the zone has one offset all day, so
    the difference is that of the wall clocks. *)
Definition total_seconds (a b : datetime) : Z :=
  ((dt_date a - dt_date b) * 1440
   + (minute_of_day (dt_time a) - minute_of_day (dt_time b))) * 60.

(** [trigger] is the [timedelta] of the alarm, in minutes. *)
Record alarm : Type := Alarm {
  action : string;
  alarm_description : pystr;
  trigger : Z
}.

Record event : Type := Event {
  summary : pystr;
  dtstart : datetime;
  dtend : datetime;
  description : pystr;
  alarms : list alarm
}.

Record calendar : Type := Calendar {
  prodid : string;
  version : string;
  calscale : string;
  events : list event
}.

(** The decimal text of an integer, for the f-strings. *)
Definition str_of_int (n : Z) : pystr :=
  lit (DecimalString.NilZero.string_of_int (Z.to_int n)).

(** [sorted_periods[0] if sorted_periods else None] *)
Definition first_of (sorted_periods : list Z) : option Z :=
  match sorted_periods with
  | [] => None
  | p :: _ => Some p
  end.

(** The loop over [enumerate(sorted_periods)] that fills [previous_lessons]. *)
Fixpoint previous_loop (sorted_periods : list Z) (i : nat) (rest : list Z)
    (previous_lessons : Dict.t Z Z) : result (Dict.t Z Z) :=
  match rest with
  | [] => ret previous_lessons
  | period :: rest' =>
      previous_lessons' <-
        (if (0 <? i)%nat then
           prev <- getitem sorted_periods (i - 1) ;;
           ret (Dict.set period prev previous_lessons)
         else ret previous_lessons) ;;
      previous_loop sorted_periods (S i) rest' previous_lessons'
  end.

Definition previous_lessons_of (sorted_periods : list Z) : result (Dict.t Z Z) :=
  previous_loop sorted_periods 0 sorted_periods Dict.empty.

(** [period == first_period] *)
Definition is_first (period : Z) (first_period : option Z) : bool :=
  match first_period with
  | Some p => period =? p
  | None => false
  end.

Section EventBuilder.
(** The two reminder check boxes. *)
Variables before_first end_previous : bool.

(** The alarm "15 minutes before first lesson of the day", when it applies. *)
Definition first_alarm (first_period : option Z) (period : Z)
    (subject : pystr) : list alarm :=
  if before_first && is_first period first_period then
    [Alarm "DISPLAY" (lit "First lesson starting soon: " ++ subject) (-15)]
  else [].

(** The alarm "at the end of the previous lesson", when it applies. *)
Definition previous_alarm (time_schedule : Dict.t Z (string * string))
    (previous_lessons : Dict.t Z Z) (date_obj : date)
    (start_datetime : datetime) (period : Z) (subject : pystr)
    : result (list alarm) :=
  if end_previous && Dict.contains period previous_lessons then
    match Dict.get period previous_lessons with
    | None => raise KeyError
    | Some previous_period =>
        if Dict.contains previous_period time_schedule then
          match Dict.get previous_period time_schedule with
          | None => raise KeyError
          | Some (_, prev_end_time_str) =>
              prev_end_time <- strptime_HM prev_end_time_str ;;
              let prev_end_datetime := DateTime date_obj prev_end_time in
              let time_diff := total_seconds start_datetime prev_end_datetime in
              let minutes_diff := Z.quot time_diff 60 in
              ret [Alarm "DISPLAY" (lit "Next lesson preparation: " ++ subject)
                         (- minutes_diff)]
          end
        else ret []
    end
  else ret [].

(** The body of the loop over [subjects.items()]: the events it adds to the
    calendar (none or one). *)
Definition lesson_events (time_schedule : Dict.t Z (string * string))
    (first_period : option Z) (previous_lessons : Dict.t Z Z)
    (date_obj : date) (period : Z) (subject : pystr) : result (list event) :=
  if mem subject ignore_subjects then ret []
  else if Dict.contains period time_schedule then
    match Dict.get period time_schedule with
    | None => raise KeyError
    | Some (start_time_str, end_time_str) =>
        start_time <- strptime_HM start_time_str ;;
        end_time <- strptime_HM end_time_str ;;
        let start_datetime := DateTime date_obj start_time in
        let end_datetime := DateTime date_obj end_time in
        let alarms1 := first_alarm first_period period subject in
        alarms2 <- previous_alarm time_schedule previous_lessons date_obj
                                  start_datetime period subject ;;
        ret [Event subject start_datetime end_datetime
                   (lit "Berufsschule - Period " ++ str_of_int period)
                   (alarms1 ++ alarms2)]
    end
  else ret [].

Fixpoint lessons_loop (time_schedule : Dict.t Z (string * string))
    (first_period : option Z) (previous_lessons : Dict.t Z Z)
    (date_obj : date) (items : list (Z * pystr)) : result (list event) :=
  match items with
  | [] => ret []
  | (period, subject) :: items' =>
      evs <- lesson_events time_schedule first_period previous_lessons
                           date_obj period subject ;;
      more <- lessons_loop time_schedule first_period previous_lessons
                           date_obj items' ;;
      ret (evs ++ more)
  end.

(** [self.friday_times if is_friday else self.weekday_times] *)
Definition time_schedule_of (date_obj : date) : Dict.t Z (string * string) :=
  if weekday date_obj =? 4 then friday_times else weekday_times.

(** The events of one date (the body of [for date_obj in week_dates]). *)
Definition day_events (date_obj : date) (subjects : Dict.t Z pystr)
    : result (list event) :=
  let time_schedule := time_schedule_of date_obj in
  let sorted_periods := sorted (Dict.keys subjects) in
  let first_period := first_of sorted_periods in
  previous_lessons <- previous_lessons_of sorted_periods ;;
  lessons_loop time_schedule first_period previous_lessons date_obj subjects.

Fixpoint dates_loop (schedule_data : schedule) (week_dates : list date)
    : result (list event) :=
  match week_dates with
  | [] => ret []
  | date_obj :: rest =>
      match Dict.get date_obj schedule_data with
      | None => raise KeyError
      | Some day_data =>
          evs <- day_events date_obj (subjects day_data) ;;
          more <- dates_loop schedule_data rest ;;
          ret (evs ++ more)
      end
  end.

(** The dates of the table that fall in the week of [monday]. *)
Definition week_dates_of (schedule_data : schedule) (monday : date) : list date :=
  filter (fun date_obj => (monday <=? date_obj) && (date_obj <? add_days monday 7))
         (Dict.keys schedule_data).

Fixpoint weeks_loop (schedule_data : schedule) (selected_weeks : list date)
    : result (list event) :=
  match selected_weeks with
  | [] => ret []
  | monday :: rest =>
      evs <- dates_loop schedule_data (week_dates_of schedule_data monday) ;;
      more <- weeks_loop schedule_data rest ;;
      ret (evs ++ more)
  end.

End EventBuilder.

(* ================================================================== *)
(** ** The converter: its fields, loading and export *)

Record state : Type := State {
  schedule_data : schedule;
  html_file : option string;
  week_vars : Dict.t date bool;
  reminder_before_first : bool;
  reminder_end_previous : bool
}.

(** [ScheduleConverter()], as [__init__] and [setup_ui] leave it. *)
Definition init : state :=
  State Dict.empty None Dict.empty true true.

(** What the user sees and what reaches the disk. *)
Inductive effect : Type :=
| ShowError (msg : string)
| ShowInfo (msg : string)
| WriteFile (path : string) (cal : calendar).

(** [Path(file_path).name], for paths with [/] as separator. *)
Fixpoint path_name (file_path : string) : string :=
  match file_path with
  | EmptyString => EmptyString
  | String c rest =>
      if Ascii.eqb c "/"%char then path_name rest
      else
        match String.index 0 "/" rest with
        | Some _ => path_name rest
        | None => file_path
        end
  end.

Section Converter.
Variable U : ucd.

(** [load_schedule()].  [opened] is what opening, reading and handing the
    file to BeautifulSoup gives: the parsed document, or the exception.
    [parse_schedule] raises only before it touches the table, so the table
    is the old one then; [display_weeks] starts by clearing the check boxes. *)
Definition load_schedule (st : state) (opened : result node)
    : state * list effect :=
  match html_file st with
  | None => (st, [ShowError "Please select an HTML file first!"])
  | Some _ =>
      match opened with
      | inl e => (st, [ShowError ("Failed to load schedule: " ++ exn_str e)])
      | inr soup =>
          match parse_schedule U soup (schedule_data st) with
          | inl e =>
              (st, [ShowError ("Failed to load schedule: " ++ exn_str e)])
          | inr schedule_data' =>
              match display_weeks schedule_data' with
              | inr week_vars' =>
                  (State schedule_data' (html_file st) week_vars'
                         (reminder_before_first st) (reminder_end_previous st),
                   [ShowInfo "Schedule loaded successfully!"])
              | inl e =>
                  (State schedule_data' (html_file st) Dict.empty
                         (reminder_before_first st) (reminder_end_previous st),
                   [ShowError ("Failed to load schedule: " ++ exn_str e)])
              end
          end
      end
  end.

End Converter.

(** [[monday for monday, var in self.week_vars.items() if var.get()]] *)
Definition selected_weeks_of (week_vars : Dict.t date bool) : list date :=
  map fst (filter (fun item => snd item) week_vars).

(** The calendar that [generate_ics] fills. *)
Definition build_calendar (st : state) (selected_weeks : list date)
    : result calendar :=
  evs <- weeks_loop (reminder_before_first st) (reminder_end_previous st)
                    (schedule_data st) selected_weeks ;;
  ret (Calendar "-//Berufsschule Schedule Converter//mxm.dk//" "2.0"
                "GREGORIAN" evs).

(** [generate_ics()].  [file_path] is the answer of the save dialog (empty
    when it is cancelled) and [written] the outcome of opening and writing
    the file.  An [inl] is an exception that leaves the method. *)
Definition generate_ics (st : state) (file_path : string)
    (written : result unit) : result (list effect) :=
  match schedule_data st with
  | [] => ret [ShowError "No schedule data loaded!"]
  | _ :: _ =>
      let selected_weeks := selected_weeks_of (week_vars st) in
      match selected_weeks with
      | [] => ret [ShowError "No weeks selected!"]
      | _ :: _ =>
          cal <- build_calendar st selected_weeks ;;
          match file_path with
          | EmptyString => ret []
          | String _ _ =>
              match written with
              | inr _ =>
                  ret [WriteFile file_path cal;
                       ShowInfo ("Calendar saved successfully to "
                                 ++ path_name file_path)]
              | inl e =>
                  ret [ShowError ("Failed to save calendar: " ++ exn_str e)]
              end
          end
      end
  end.

(** [browse_file], [select_all_weeks], [deselect_all_weeks] and a click on
    one check box. *)
Definition browse_file (st : state) (file_path : string) : state :=
  match file_path with
  | EmptyString => st
  | String _ _ =>
      State (schedule_data st) (Some file_path) (week_vars st)
            (reminder_before_first st) (reminder_end_previous st)
  end.

Definition set_all_weeks (b : bool) (st : state) : state :=
  State (schedule_data st) (html_file st)
        (map (fun item => (fst item, b)) (week_vars st))
        (reminder_before_first st) (reminder_end_previous st).

Definition select_all_weeks : state -> state := set_all_weeks true.
Definition deselect_all_weeks : state -> state := set_all_weeks false.

(* ================================================================== *)
(** * Notions used in the statements *)

(** The data-row test: at least 12 cells, and the text of the first, trimmed,
    starts with one or two digits, a dot, optional blanks and a word. *)
Definition data_row_test (U : ucd) (row : node) : bool :=
  let cells := find_all cell_names row in
  (12 <=? List.length cells)%nat
  && match cells with
     | c0 :: _ =>
         match match_date U (strip U (get_text c0)) with
         | Some _ => true
         | None => false
         end
     | [] => false
     end.

(** A stored subject: not empty and not one of the ignored labels. *)
Definition good_subject (s : pystr) : Prop :=
  s <> [] /\ ~ In s ignore_subjects.

(** Every stored day has a lesson, and every stored lesson a real subject. *)
Definition schedule_inv (sd : schedule) : Prop :=
  forall d dd, In (d, dd) sd ->
    subjects dd <> [] /\ forall p s, In (p, s) (subjects dd) -> good_subject s.

Definition good_subjects (ds : Dict.t Z pystr) : Prop :=
  forall p s, In (p, s) ds -> good_subject s.

(** What one data row does to the table. *)
Inductive row_outcome (U : ucd) (sd : schedule) (row : node) : schedule -> Prop :=
| row_short :
    (List.length (find_all cell_names row) < 12)%nat ->
    row_outcome U sd row sd
| row_no_date c0 rest :
    find_all cell_names row = c0 :: rest ->
    match_date U (strip U (get_text c0)) = None ->
    row_outcome U sd row sd
| row_invalid c0 rest g1 g2 :
    find_all cell_names row = c0 :: rest ->
    match_date U (strip U (get_text c0)) = Some (g1, g2) ->
    date_new (year_of (month_of (lower U g2))) (month_of (lower U g2))
             (int_of U g1) = None ->
    row_outcome U sd row sd
| row_empty c0 rest g1 g2 d :
    find_all cell_names row = c0 :: rest ->
    match_date U (strip U (get_text c0)) = Some (g1, g2) ->
    date_new (year_of (month_of (lower U g2))) (month_of (lower U g2))
             (int_of U g1) = Some d ->
    subject_loop U (find_all cell_names row) (seq 2 10) Dict.empty = inr [] ->
    row_outcome U sd row sd
| row_stored c0 c1 rest g1 g2 d ds :
    find_all cell_names row = c0 :: c1 :: rest ->
    match_date U (strip U (get_text c0)) = Some (g1, g2) ->
    date_new (year_of (month_of (lower U g2))) (month_of (lower U g2))
             (int_of U g1) = Some d ->
    subject_loop U (find_all cell_names row) (seq 2 10) Dict.empty = inr ds ->
    ds <> [] -> good_subjects ds ->
    row_outcome U sd row
      (Dict.set d (DayData (strip U (get_text c1)) ds) sd).

(** [q] comes immediately before [p] among the members of [l]. *)
Definition precedes (l : list Z) (q p : Z) : Prop :=
  In q l /\ In p l /\ q < p /\ forall r, In r l -> ~ (q < r < p).

(** The pairs (period, previous period) along a list that follows [prev]. *)
Fixpoint pairs_from (prev : Z) (rest : list Z) : list (Z * Z) :=
  match rest with
  | [] => []
  | p :: rest' => (p, prev) :: pairs_from p rest'
  end.

Definition set_pairs (pairs : list (Z * Z)) (d : Dict.t Z Z) : Dict.t Z Z :=
  fold_left (fun d kv => Dict.set (fst kv) (snd kv) d) pairs d.

(** The state of the grouping loop after the dates [seen]. *)
Record grouped (weeks : Dict.t date (list date)) (seen : list date) : Prop := {
  grouped_sound : forall m b d,
      Dict.get m weeks = Some b -> In d b -> monday_of d = m /\ In d seen;
  grouped_complete : forall d,
      In d seen -> exists b, Dict.get (monday_of d) weeks = Some b /\ In d b;
  grouped_mondays : forall m, In m (Dict.keys weeks) -> weekday m = 0;
  grouped_nonempty : forall m, Dict.get m weeks <> Some []
}.

(** The keys of [month_map], in the order of the months. *)
Definition german_months : list pystr :=
  [lit "jan"; lit "feb"; [109; 228; 114]%N; lit "apr"; lit "mai"; lit "jun";
   lit "jul"; lit "aug"; lit "sep"; lit "okt"; lit "nov"; lit "dez"].

(** What a data row does to the table: nothing, or one entry written. *)
Definition store (upd : option (date * day_data)) (sd : schedule) : schedule :=
  match upd with
  | Some (d, dd) => Dict.set d dd sd
  | None => sd
  end.

Definition store_all (upds : list (option (date * day_data))) (sd : schedule)
    : schedule :=
  fold_left (fun sd upd => store upd sd) upds sd.

(** Parsed tables are well formed: distinct dates, and distinct periods on
    every day. *)
Definition schedule_wf (sd : schedule) : Prop :=
  Dict.wf sd /\ forall d dd, In (d, dd) sd -> Dict.wf (subjects dd).

(* ================================================================== *)
(** * Scenarios *)

(** A cell, a row of cells and a document around a table. *)
Definition td (text : string) : node := Tag "td" [NavigableString (lit text)].

Definition tr (texts : list string) : node := Tag "tr" (map td texts).

Definition document (rows : list node) : node :=
  Tag "[document]" [Tag "html" [Tag "body" [Tag "table" rows]]].

Definition newline : string := String "010"%char EmptyString.

Definition header_row : node :=
  Tag "tr" [Tag "th" [NavigableString (lit "Datum")];
            Tag "th" [NavigableString (lit "Tag")]].

(** Tuesday 2 September 2025: "Mathe" in period 1, nothing else. *)
Definition row_mathe : node :=
  tr ["02. Sep"; "Di"; "Mathe" ++ newline; "Frei"; "#NV"; ""; " "; "Betrieb";
      "Feiertag"; "Frei"; "Frei"; "Frei"]%string.

Definition soup_mathe : node := document [header_row; row_mathe].

(** Wednesday 3 September 2025: "Deutsch" in period 3. *)
Definition row_deutsch : node :=
  tr ["03. Sep"; "Mi"; "Frei"; "Frei"; "Deutsch"; "Frei"; "Frei"; "Frei";
      "Frei"; "Frei"; "Frei"; "Frei"]%string.

Definition soup_deutsch : node := document [header_row; row_deutsch].

(** A document without a table. *)
Definition soup_plain : node :=
  Tag "[document]" [Tag "p" [NavigableString (lit "no plan")]].

Definition sep_2 : date := 739496.
Definition sep_3 : date := 739497.
Definition sep_5 : date := 739499.

(** Choosing a file and loading it. *)
Definition loaded (soup : node) (st : state) : state :=
  fst (load_schedule latin1 (browse_file st "plan.html") (inr soup)).

Definition st_mathe : state := loaded soup_mathe init.

Definition st_reloaded : state := loaded soup_deutsch st_mathe.

(** A day with lessons in the periods 1, 3 and 6. *)
Definition day_136 : Dict.t Z pystr :=
  [(1, lit "Mathe"); (3, lit "Deutsch"); (6, lit "Sport")].

(** A Friday whose only lesson is in period 7. *)
Definition friday_ilias : Dict.t Z pystr := [(7, lit "ILIAS")].

(* ================================================================== *)
(** * Further notions *)

(** A lesson that the export turns into an event: its subject is not an
    ignored label and its period has a time slot. *)
Definition exported (time_schedule : Dict.t Z (string * string))
    (item : Z * pystr) : bool :=
  negb (mem (snd item) ignore_subjects) && Dict.contains (fst item) time_schedule.

(** The event of a lesson: its subject, its period in the description, and
    the times of the period's slot on the lesson's date. *)
Definition event_of_lesson (date_obj : date) (ev : event) (item : Z * pystr)
    : Prop :=
  summary ev = snd item
  /\ description ev = lit "Berufsschule - Period " ++ str_of_int (fst item)
  /\ exists s e ts te,
       Dict.get (fst item) (time_schedule_of date_obj) = Some (s, e)
       /\ strptime_HM s = inr ts /\ strptime_HM e = inr te
       /\ dtstart ev = DateTime date_obj ts
       /\ dtend ev = DateTime date_obj te.

(** The row [row] writes the day [dd] under the date [d]. *)
Definition stored_by (U : ucd) (row : node) (d : date) (dd : day_data) : Prop :=
  exists c0 c1 rest g1 g2,
    find_all cell_names row = c0 :: c1 :: rest
    /\ match_date U (strip U (get_text c0)) = Some (g1, g2)
    /\ date_new (year_of (month_of (lower U g2))) (month_of (lower U g2))
                (int_of U g1) = Some d
    /\ subject_loop U (find_all cell_names row) (seq 2 10) Dict.empty
       = inr (subjects dd)
    /\ day dd = strip U (get_text c1)
    /\ subjects dd <> [].

(** The first and the last day of the school year 2025/2026
    (1 August 2025 and 31 July 2026), as ordinals. *)
Definition school_year_first : date := 739464.
Definition school_year_last : date := 739828.

(** The lesson that column [i] of a row gives, if any: period [i - 1] with
    the first non-blank line of the cell, trimmed, unless that is an ignored
    label. *)
Definition cell_subject (U : ucd) (cells : list node) (i : nat)
    : list (Z * pystr) :=
  match nth_error cells i with
  | Some c =>
      match subject_lines_of U (strip U (get_text c)) with
      | first :: _ =>
          if mem first ignore_subjects then []
          else [(Z.of_nat i - 1, first)]
      | [] => []
      end
  | None => []
  end.

(** A trimmed single line: not empty, no white space at either end, and no
    line feed inside. *)
Definition trimmed (U : ucd) (s : pystr) : Prop :=
  s <> []
  /\ (forall c r, s = c :: r -> isspace U c = false)
  /\ (forall r c, s = r ++ [c] -> isspace U c = false)
  /\ ~ In 10%N s.

(** The shape the date pattern asks of the start of a text: one or two
    decimal digits [g1], a dot, white space [sp], and a non-empty run of word
    characters [g2]. *)
Definition date_shaped (U : ucd) (s g1 sp g2 rest : pystr) : Prop :=
  s = g1 ++ 46%N :: sp ++ g2 ++ rest
  /\ (List.length g1 = 1%nat \/ List.length g1 = 2%nat)
  /\ Forall (fun c => isdigit U c = true) g1
  /\ Forall (fun c => isspace U c = true) sp
  /\ g2 <> []
  /\ Forall (fun c => isword U c = true) g2.

(** ** The summary line of a week ([display_weeks]) *)








(* ================================================================== *)
(** * Properties *)

(** ** Strings, dictionaries, lists *)

Lemma pystr_eqb_eq (a b : pystr) : PyStr.eqb a b = true <-> a = b.
Proof. destruct (PyStr.eqb_spec a b); split; congruence. Qed.

Lemma pystr_eqb_refl (a : pystr) : PyStr.eqb a a = true.
Proof. now apply pystr_eqb_eq. Qed.

Lemma mem_In (x : pystr) (s : list pystr) : mem x s = true <-> In x s.
Proof.
  unfold mem; rewrite existsb_exists; split.
  - intros (y & Hy & E). apply pystr_eqb_eq in E. now subst.
  - intros H. exists x. split; [assumption | apply pystr_eqb_refl].
Qed.

Module DictFacts.
Import Dict.
Section Facts.
Context {K V : Type} `{EqKey K}.
Implicit Types (k : K) (v : V) (d : Dict.t K V).

Lemma get_set_eq k v d : get k (set k v d) = Some v.
Proof.
  induction d as [|[k' v'] d IH]; simpl.
  - destruct (keqb_spec k k); congruence.
  - destruct (keqb_spec k k') as [->|ne]; simpl.
    + destruct (keqb_spec k' k'); congruence.
    + destruct (keqb_spec k k'); congruence.
Qed.

Lemma get_set_neq k k0 v d : k0 <> k -> get k0 (set k v d) = get k0 d.
Proof.
  intros ne; induction d as [|[k' v'] d IH]; simpl.
  - destruct (keqb_spec k0 k); congruence.
  - destruct (keqb_spec k k') as [->|ne']; simpl.
    + destruct (keqb_spec k0 k'); congruence.
    + destruct (keqb_spec k0 k'); congruence.
Qed.

Lemma keys_set k v d k0 :
  In k0 (keys (set k v d)) <-> k0 = k \/ In k0 (keys d).
Proof.
  induction d as [|[k' v'] d IH]; simpl.
  - intuition congruence.
  - destruct (keqb_spec k k') as [->|ne]; simpl.
    + intuition congruence.
    + rewrite IH. intuition congruence.
Qed.

Lemma wf_empty : wf (empty : Dict.t K V).
Proof. constructor. Qed.

Lemma wf_set k v d : wf d -> wf (set k v d).
Proof.
  unfold wf; induction d as [|[k' v'] d IH]; simpl; intros Hd.
  - constructor; [intros [] | constructor].
  - inversion Hd as [|? ? Hnin Hd']; subst.
    destruct (keqb_spec k k') as [->|ne]; simpl.
    + now constructor.
    + constructor; [|now apply IH].
      fold (keys (set k v d)). rewrite keys_set. intuition congruence.
Qed.

Lemma get_Some_In k v d : get k d = Some v -> In (k, v) d.
Proof.
  induction d as [|[k' v'] d IH]; simpl; [discriminate|].
  destruct (keqb_spec k k') as [->|ne].
  - intros [= ->]. now left.
  - intros E. right. now apply IH.
Qed.

Lemma In_get k v d : wf d -> In (k, v) d -> get k d = Some v.
Proof.
  unfold wf; induction d as [|[k' v'] d IH]; simpl; [intros _ []|].
  intros Hd [E|Hin].
  - injection E as -> ->. destruct (keqb_spec k k); congruence.
  - inversion Hd as [|? ? Hnin Hd']; subst.
    destruct (keqb_spec k k') as [->|ne].
    + exfalso. apply Hnin. change k' with (fst (k', v)).
      now apply in_map.
    + now apply IH.
Qed.

Lemma get_None k d : get k d = None <-> ~ In k (keys d).
Proof.
  induction d as [|[k' v'] d IH]; simpl.
  - intuition.
  - destruct (keqb_spec k k') as [->|ne].
    + split; [discriminate | intros Hn; exfalso; apply Hn; now left].
    + rewrite IH. intuition congruence.
Qed.

Lemma contains_keys k d : contains k d = true <-> In k (keys d).
Proof.
  unfold contains. destruct (get k d) eqn:E.
  - split; [intros _ | reflexivity].
    apply get_Some_In in E. change k with (fst (k, v)). now apply in_map.
  - apply get_None in E. split; [discriminate | contradiction].
Qed.

End Facts.
End DictFacts.

Import DictFacts.

Lemma weekday_range (d : date) : 0 <= weekday d < 7.
Proof. unfold weekday. apply Z.mod_pos_bound. lia. Qed.

Lemma getitem_lt {A : Type} (l : list A) (i : nat) :
  (i < List.length l)%nat -> exists a, getitem l i = inr a /\ nth_error l i = Some a.
Proof.
  intros Hi. unfold getitem. destruct (nth_error l i) as [a|] eqn:E.
  - now exists a.
  - apply nth_error_None in E. lia.
Qed.

(** ** The document tree *)

(** Induction over the tree with the hypothesis for all children. *)
Lemma node_ind' (P : node -> Prop)
    (Hs : forall s, P (NavigableString s))
    (Ht : forall nm ch, Forall P ch -> P (Tag nm ch)) :
  forall n, P n.
Proof.
  apply (node_rect' P (Forall P)); auto.
Qed.

Lemma matching_spec names n t :
  In n (matching names t) <->
  (n = t \/ descendant n t) /\ named names n = true.
Proof.
  induction t as [s|nm ch IH] using node_ind'; simpl.
  - split; [intros [] | intros [[->|Hd] Hn]; [discriminate | inversion Hd]].
  - rewrite in_app_iff, in_flat_map. split.
    + intros [Hself | (m & Hm & Hin)].
      * destruct (existsb (String.eqb nm) names) eqn:E; [|destruct Hself].
        destruct Hself as [<-|[]]. split; [now left | exact E].
      * rewrite Forall_forall in IH. apply (IH m Hm) in Hin.
        destruct Hin as [[->|Hd] Hn]; (split; [right | exact Hn]).
        -- now apply desc_child.
        -- now apply desc_below with m.
    + intros [[->|Hd] Hn].
      * left. simpl in Hn. rewrite Hn. now left.
      * right. rewrite Forall_forall in IH.
        inversion Hd as [? ? Hin | ? ? m Hm Hdm]; subst.
        -- exists n. split; [exact Hin|]. apply IH; [exact Hin|]. split; auto.
        -- exists m. split; [exact Hm|]. apply IH; [exact Hm|]. split; auto.
Qed.

Lemma find_all_spec names n t :
  In n (find_all names t) <-> descendant n t /\ named names n = true.
Proof.
  unfold find_all. rewrite in_flat_map. split.
  - intros (m & Hm & Hin). apply matching_spec in Hin.
    destruct t as [s|nm ch]; simpl in Hm; [destruct Hm|].
    destruct Hin as [[->|Hd] Hn]; (split; [|exact Hn]).
    + now apply desc_child.
    + now apply desc_below with m.
  - intros [Hd Hn].
    inversion Hd as [? ? Hin | ? ? m Hm Hdm]; subst; simpl.
    + exists n. split; [exact Hin|]. apply matching_spec. auto.
    + exists m. split; [exact Hm|]. apply matching_spec. auto.
Qed.

(** ** [sorted] *)

Lemma insert_sorted_perm (x : Z) (l : list Z) :
  Permutation (x :: l) (insert_sorted x l).
Proof.
  induction l as [|y l IH]; simpl; [reflexivity|].
  destruct (x <=? y); [reflexivity|].
  rewrite perm_swap. now apply perm_skip.
Qed.

Lemma sorted_perm (l : list Z) : Permutation l (sorted l).
Proof.
  induction l as [|x l IH]; simpl; [constructor|].
  rewrite <- insert_sorted_perm. now apply perm_skip.
Qed.

Lemma sorted_In (l : list Z) (x : Z) : In x (sorted l) <-> In x l.
Proof.
  split; apply Permutation_in; [symmetry|]; apply sorted_perm.
Qed.

Lemma insert_sorted_le (x : Z) (l : list Z) :
  StronglySorted Z.le l -> StronglySorted Z.le (insert_sorted x l).
Proof.
  induction l as [|y l IH]; simpl; intros Hs.
  - repeat constructor.
  - inversion Hs as [|? ? Hl Hy]; subst.
    destruct (Z.leb_spec x y).
    + constructor; [exact Hs|]. constructor; [assumption|].
      eapply Forall_impl; [|exact Hy]. intros; lia.
    + constructor; [now apply IH|].
      rewrite Forall_forall in *. intros z Hz.
      apply (Permutation_in _ (Permutation_sym (insert_sorted_perm x l))) in Hz.
      destruct Hz as [<-|Hz]; [lia | now apply Hy].
Qed.

Lemma sorted_le (l : list Z) : StronglySorted Z.le (sorted l).
Proof.
  induction l as [|x l IH]; simpl; [constructor | now apply insert_sorted_le].
Qed.

Lemma sorted_NoDup (l : list Z) : NoDup l -> NoDup (sorted l).
Proof. apply Permutation_NoDup, sorted_perm. Qed.

Lemma le_NoDup_lt (l : list Z) :
  StronglySorted Z.le l -> NoDup l -> StronglySorted Z.lt l.
Proof.
  induction 1 as [|x l Hs IH Hx]; intros Hn; [constructor|].
  inversion Hn as [|? ? Hnin Hn']; subst.
  constructor; [now apply IH|].
  rewrite Forall_forall in *. intros y Hy.
  specialize (Hx y Hy). assert (x <> y) by (intros ->; contradiction). lia.
Qed.

Lemma sorted_lt (l : list Z) : NoDup l -> StronglySorted Z.lt (sorted l).
Proof.
  intros Hn. apply le_NoDup_lt; [apply sorted_le | now apply sorted_NoDup].
Qed.

(** The first element of the sorted keys is the least key. *)
Lemma first_of_sorted_least (l : list Z) (p : Z) :
  first_of (sorted l) = Some p -> In p l /\ forall k, In k l -> p <= k.
Proof.
  intros E. pose proof (sorted_le l) as Hs.
  destruct (sorted l) as [|q s] eqn:Es; simpl in E; [discriminate|].
  injection E as ->.
  split.
  - apply sorted_In. rewrite Es. now left.
  - intros k Hk. apply sorted_In in Hk. rewrite Es in Hk.
    inversion Hs as [|? ? _ Hall]; subst.
    destruct Hk as [<-|Hk]; [lia|].
    rewrite Forall_forall in Hall. now apply Hall.
Qed.

Lemma least_first_of_sorted (l : list Z) (p : Z) :
  In p l -> (forall k, In k l -> p <= k) -> first_of (sorted l) = Some p.
Proof.
  intros Hin Hle. pose proof (sorted_le l) as Hs.
  destruct (sorted l) as [|q s] eqn:Es.
  - apply sorted_In in Hin. rewrite Es in Hin. destruct Hin.
  - simpl. f_equal.
    assert (Hq : In q l) by (apply sorted_In; rewrite Es; now left).
    apply sorted_In in Hin. rewrite Es in Hin.
    inversion Hs as [|? ? _ Hall]; subst.
    rewrite Forall_forall in Hall.
    destruct Hin as [->|Hin]; [reflexivity|].
    specialize (Hall p Hin). specialize (Hle q Hq). lia.
Qed.

(** ** The map of previous lessons *)

Lemma pairs_from_fst (prev : Z) (rest : list Z) :
  map fst (pairs_from prev rest) = rest.
Proof.
  revert prev; induction rest as [|p rest IH]; intros prev; simpl;
    [reflexivity | now rewrite IH].
Qed.

Lemma previous_loop_spec (sp pre rest : list Z) (q : Z) (d : Dict.t Z Z) :
  sp = pre ++ q :: rest ->
  previous_loop sp (S (List.length pre)) rest d
  = inr (set_pairs (pairs_from q rest) d).
Proof.
  revert pre q d. induction rest as [|p rest IH]; intros pre q d E; simpl.
  - reflexivity.
  - unfold getitem. rewrite Nat.sub_0_r.
    assert (Hn : nth_error sp (List.length pre) = Some q).
    { rewrite E, nth_error_app2 by lia. now rewrite Nat.sub_diag. }
    rewrite Hn. simpl.
    specialize (IH (pre ++ [q]) p (Dict.set p q d)).
    rewrite length_app in IH. simpl in IH.
    rewrite Nat.add_1_r in IH. apply IH.
    now rewrite <- app_assoc.
Qed.

Lemma previous_lessons_of_spec (sp : list Z) :
  previous_lessons_of sp
  = inr (match sp with
         | [] => Dict.empty
         | p :: rest => set_pairs (pairs_from p rest) Dict.empty
         end).
Proof.
  unfold previous_lessons_of. destruct sp as [|p rest]; [reflexivity|].
  simpl. apply (previous_loop_spec (p :: rest) [] rest p). reflexivity.
Qed.

Lemma set_pairs_keys (pairs : list (Z * Z)) (d : Dict.t Z Z) (k : Z) :
  In k (Dict.keys (set_pairs pairs d)) <->
  In k (Dict.keys d) \/ In k (map fst pairs).
Proof.
  revert d; induction pairs as [|[p q] pairs IH]; intros d; simpl.
  - tauto.
  - unfold set_pairs in *; simpl. rewrite IH, keys_set. intuition.
Qed.

Lemma set_pairs_get_other (pairs : list (Z * Z)) (d : Dict.t Z Z) (k : Z) :
  ~ In k (map fst pairs) -> Dict.get k (set_pairs pairs d) = Dict.get k d.
Proof.
  revert d; induction pairs as [|[p q] pairs IH]; intros d Hn; simpl in *.
  - reflexivity.
  - unfold set_pairs in *; simpl. rewrite IH by tauto.
    apply get_set_neq. intros ->. tauto.
Qed.

Lemma set_pairs_get (pairs : list (Z * Z)) (d : Dict.t Z Z) (k v : Z) :
  NoDup (map fst pairs) -> In (k, v) pairs ->
  Dict.get k (set_pairs pairs d) = Some v.
Proof.
  revert d; induction pairs as [|[p q] pairs IH]; intros d Hn Hin; simpl in *.
  - destruct Hin.
  - inversion Hn as [|? ? Hnin Hn']; subst.
    destruct Hin as [E|Hin].
    + injection E as -> ->. unfold set_pairs; simpl.
      fold (set_pairs pairs (Dict.set k v d)).
      rewrite set_pairs_get_other by assumption. apply get_set_eq.
    + unfold set_pairs; simpl. now apply IH.
Qed.

Lemma precedes_pairs (a : Z) (l : list Z) (q p : Z) :
  StronglySorted Z.lt (a :: l) -> precedes (a :: l) q p ->
  In (p, q) (pairs_from a l).
Proof.
  revert a. induction l as [|b l IH]; intros a Hs (Hq & Hp & Hlt & Hbetween).
  - simpl in Hq, Hp. destruct Hq as [<-|[]], Hp as [<-|[]]. lia.
  - inversion Hs as [|? ? Hs' Ha]; subst.
    rewrite Forall_forall in Ha.
    inversion Hs' as [|? ? Hs'' Hb]; subst.
    rewrite Forall_forall in Hb.
    simpl. destruct Hq as [<-|Hq].
    + destruct Hp as [<-|Hp]; [lia|].
      destruct Hp as [<-|Hp]; [now left|].
      exfalso. apply (Hbetween b); [right; now left|].
      split; [apply Ha; now left | now apply Hb].
    + right. apply IH; [exact Hs'|].
      assert (a < q) by now apply Ha.
      destruct Hp as [<-|Hp]; [lia|].
      repeat split; try assumption.
      intros r Hr. apply Hbetween. now right.
Qed.

(** What [previous_lessons] holds for the keys of a day. *)
Lemma previous_lessons_sorted (keys : list Z) :
  NoDup keys ->
  exists previous_lessons,
    previous_lessons_of (sorted keys) = inr previous_lessons
    /\ (forall p, first_of (sorted keys) = Some p ->
                  Dict.contains p previous_lessons = false)
    /\ (forall q p, precedes keys q p ->
                    Dict.get p previous_lessons = Some q).
Proof.
  intros Hn. rewrite previous_lessons_of_spec.
  pose proof (sorted_lt keys Hn) as Hs.
  pose proof (sorted_NoDup keys Hn) as Hnd.
  assert (Hin : forall x, In x (sorted keys) <-> In x keys) by apply sorted_In.
  destruct (sorted keys) as [|a l]; eexists; (split; [reflexivity|]); split.
  - discriminate.
  - intros q p (Hq & _). apply Hin in Hq. destruct Hq.
  - intros p [= <-].
    destruct (Dict.contains a _) eqn:E; [|reflexivity].
    apply contains_keys, set_pairs_keys in E.
    rewrite pairs_from_fst in E. inversion Hnd; subst.
    destruct E as [[]|E]; contradiction.
  - intros q p (Hq & Hp & Hlt & Hb).
    apply set_pairs_get.
    + rewrite pairs_from_fst. now inversion Hnd.
    + apply precedes_pairs; [exact Hs|].
      repeat split; try (now apply Hin); try assumption.
      intros r Hr. apply Hb. now apply Hin.
Qed.

(** ** The time tables *)

Lemma time_schedule_parses (date_obj : date) (p : Z) (s e : string) :
  Dict.get p (time_schedule_of date_obj) = Some (s, e) ->
  exists ts te, strptime_HM s = inr ts /\ strptime_HM e = inr te.
Proof.
  intros Hg. apply get_Some_In in Hg. revert Hg.
  unfold time_schedule_of, weekday_times, friday_times.
  destruct (weekday date_obj =? 4); simpl; intros Hin;
    repeat (destruct Hin as [E|Hin];
            [injection E as <- <- <-; eexists; eexists; split; reflexivity|]);
    destruct Hin.
Qed.

Lemma contains_get {V : Type} (k : Z) (d : Dict.t Z V) :
  Dict.contains k d = true <-> exists v, Dict.get k d = Some v.
Proof.
  unfold Dict.contains. destruct (Dict.get k d) as [v|].
  - split; [intros _; now exists v | reflexivity].
  - split; [discriminate | intros [v Hv]; discriminate].
Qed.

(** The offset of the previous-lesson alarm: the whole minutes from the end of
    the previous lesson to the start of this one. *)
Lemma minutes_diff_same_day (date_obj : date) (ts tq : time) :
  Z.quot (total_seconds (DateTime date_obj ts) (DateTime date_obj tq)) 60
  = minute_of_day ts - minute_of_day tq.
Proof.
  unfold total_seconds; simpl. rewrite Z.sub_diag. simpl.
  apply Z.quot_mul. lia.
Qed.

(** ** The event builder *)

Section EventFacts.
Variables before_first end_previous : bool.
Variable date_obj : date.
Variable first_period : option Z.
Variable previous_lessons : Dict.t Z Z.

Let time_schedule := time_schedule_of date_obj.

(** The previous-lesson alarm never raises; it is absent or the single
    alarm at the end of the previous lesson. *)
Lemma previous_alarm_cases (start_datetime : datetime) (p : Z) (subj : pystr) :
  (previous_alarm end_previous time_schedule previous_lessons date_obj
                  start_datetime p subj = inr []
   /\ (end_previous = false
       \/ Dict.get p previous_lessons = None
       \/ exists q, Dict.get p previous_lessons = Some q
                    /\ Dict.get q time_schedule = None))
  \/ (exists q s e tq,
        end_previous = true
        /\ Dict.get p previous_lessons = Some q
        /\ Dict.get q time_schedule = Some (s, e)
        /\ strptime_HM e = inr tq
        /\ previous_alarm end_previous time_schedule previous_lessons date_obj
                          start_datetime p subj
           = inr [Alarm "DISPLAY" (lit "Next lesson preparation: " ++ subj)
                        (- Z.quot (total_seconds start_datetime
                                                 (DateTime date_obj tq)) 60)]).
Proof.
  unfold previous_alarm, Dict.contains.
  destruct end_previous; simpl; [|left; split; [reflexivity | now left]].
  destruct (Dict.get p previous_lessons) as [q|] eqn:Eq;
    [|left; split; [reflexivity | right; now left]].
  destruct (Dict.get q time_schedule) as [[s e]|] eqn:Es.
  - right. destruct (time_schedule_parses _ _ _ _ Es) as (ts & te & _ & Hte).
    exists q, s, e, te. rewrite Hte. simpl. auto.
  - left. split; [reflexivity|]. right; right. now exists q.
Qed.

(** One lesson gives no event, or the one event of its time slot. *)
Lemma lesson_events_cases (p : Z) (subj : pystr) :
  (lesson_events before_first end_previous time_schedule first_period
                 previous_lessons date_obj p subj = inr []
   /\ (mem subj ignore_subjects = true \/ Dict.get p time_schedule = None))
  \/ (exists s e ts te al,
        mem subj ignore_subjects = false
        /\ Dict.get p time_schedule = Some (s, e)
        /\ strptime_HM s = inr ts /\ strptime_HM e = inr te
        /\ previous_alarm end_previous time_schedule previous_lessons date_obj
                          (DateTime date_obj ts) p subj = inr al
        /\ lesson_events before_first end_previous time_schedule first_period
                         previous_lessons date_obj p subj
           = inr [Event subj (DateTime date_obj ts) (DateTime date_obj te)
                        (lit "Berufsschule - Period " ++ str_of_int p)
                        (first_alarm before_first first_period p subj ++ al)]).
Proof.
  unfold lesson_events, Dict.contains.
  destruct (mem subj ignore_subjects) eqn:Em;
    [left; split; [reflexivity | now left]|].
  destruct (Dict.get p time_schedule) as [[s e]|] eqn:Es;
    [|left; split; [reflexivity | now right]].
  right. destruct (time_schedule_parses _ _ _ _ Es) as (ts & te & Hts & Hte).
  rewrite Hts, Hte. simpl.
  destruct (previous_alarm_cases (DateTime date_obj ts) p subj)
    as [[Hal _] | (q & s' & e' & tq & _ & _ & _ & _ & Hal)];
    rewrite Hal; simpl; eexists s, e, ts, te, _;
    repeat split; first [eassumption | reflexivity].
Qed.

(** The loop over the lessons never raises, and its events are exactly the
    events of the single lessons. *)
Lemma lessons_loop_spec (items : list (Z * pystr)) :
  exists evs,
    lessons_loop before_first end_previous time_schedule first_period
                 previous_lessons date_obj items = inr evs
    /\ forall ev, In ev evs <->
         exists p subj, In (p, subj) items
           /\ lesson_events before_first end_previous time_schedule
                 first_period previous_lessons date_obj p subj = inr [ev].
Proof.
  induction items as [|[p subj] items (evs & Hevs & IH)]; simpl.
  - exists []. split; [reflexivity|]. intros ev; split; [intros [] |].
    intros (p & subj & [] & _).
  - rewrite Hevs.
    destruct (lesson_events_cases p subj)
      as [[H0 _] | (s & e & ts & te & al & _ & _ & _ & _ & _ & H1)].
    + rewrite H0. simpl. exists evs. split; [reflexivity|].
      intros ev. rewrite IH. split.
      * intros (p' & subj' & Hin & Hev). exists p', subj'. auto.
      * intros (p' & subj' & [E|Hin] & Hev).
        -- injection E as <- <-. rewrite H0 in Hev. discriminate.
        -- exists p', subj'. auto.
    + rewrite H1. simpl. eexists. split; [reflexivity|].
      intros ev. simpl. rewrite IH. split.
      * intros [<-|(p' & subj' & Hin & Hev)].
        -- exists p, subj. auto.
        -- exists p', subj'. auto.
      * intros (p' & subj' & [E|Hin] & Hev).
        -- injection E as <- <-. rewrite H1 in Hev. injection Hev as <-.
           now left.
        -- right. exists p', subj'. auto.
Qed.

End EventFacts.

(** The events of a day: the builder never raises and the events are those
    of the single lessons. *)
Lemma day_events_items (before_first end_previous : bool) (date_obj : date)
    (subjects : Dict.t Z pystr) :
  exists evs previous_lessons,
    previous_lessons_of (sorted (Dict.keys subjects)) = inr previous_lessons
    /\ day_events before_first end_previous date_obj subjects = inr evs
    /\ (forall ev, In ev evs <->
          exists p subj, In (p, subj) subjects
            /\ lesson_events before_first end_previous
                  (time_schedule_of date_obj)
                  (first_of (sorted (Dict.keys subjects)))
                  previous_lessons date_obj p subj = inr [ev]).
Proof.
  pose proof (previous_lessons_of_spec (sorted (Dict.keys subjects))) as Hpl.
  destruct (lessons_loop_spec before_first end_previous date_obj
              (first_of (sorted (Dict.keys subjects)))
              match sorted (Dict.keys subjects) with
              | [] => Dict.empty
              | p :: rest => set_pairs (pairs_from p rest) Dict.empty
              end subjects)
    as (evs & Hevs & Hin).
  eexists evs, _. split; [exact Hpl|].
  unfold day_events. rewrite Hpl. simpl. split; assumption.
Qed.

(** With distinct periods, the map of previous lessons is as described. *)
Lemma day_events_spec (before_first end_previous : bool) (date_obj : date)
    (subjects : Dict.t Z pystr) :
  Dict.wf subjects ->
  exists evs previous_lessons,
    day_events before_first end_previous date_obj subjects = inr evs
    /\ (forall ev, In ev evs <->
          exists p subj, In (p, subj) subjects
            /\ lesson_events before_first end_previous
                  (time_schedule_of date_obj)
                  (first_of (sorted (Dict.keys subjects)))
                  previous_lessons date_obj p subj = inr [ev])
    /\ (forall p, first_of (sorted (Dict.keys subjects)) = Some p ->
                  Dict.contains p previous_lessons = false)
    /\ (forall q p, precedes (Dict.keys subjects) q p ->
                    Dict.get p previous_lessons = Some q).
Proof.
  intros Hwf.
  destruct (previous_lessons_sorted (Dict.keys subjects) Hwf)
    as (pl & Hpl & Hfirst & Hprev).
  destruct (day_events_items before_first end_previous date_obj subjects)
    as (evs & pl' & Hpl' & Hday & Hin).
  rewrite Hpl in Hpl'. injection Hpl' as <-.
  exists evs, pl. repeat split; try assumption; apply Hin.
Qed.

Lemma is_first_eq (p : Z) (first_period : option Z) :
  is_first p first_period = true <-> first_period = Some p.
Proof.
  destruct first_period as [f|]; simpl; [|split; discriminate].
  rewrite Z.eqb_eq. split; congruence.
Qed.

(** An event of a day carries at most one alarm. *)
Lemma day_events_one_alarm (before_first end_previous : bool)
    (date_obj : date) (subjects : Dict.t Z pystr) (evs : list event) :
  Dict.wf subjects ->
  day_events before_first end_previous date_obj subjects = inr evs ->
  forall ev, In ev evs -> (List.length (alarms ev) <= 1)%nat.
Proof.
  intros Hwf Hday ev Hev.
  destruct (day_events_spec before_first end_previous date_obj subjects Hwf)
    as (evs' & pl & Hday' & Hin & Hfirst & _).
  rewrite Hday in Hday'. injection Hday' as <-.
  apply Hin in Hev. destruct Hev as (p & subj & _ & Hl).
  destruct (lesson_events_cases before_first end_previous date_obj
              (first_of (sorted (Dict.keys subjects))) pl p subj)
    as [[H0 _] | (s & e & ts & te & al & _ & _ & _ & _ & Hal & H1)].
  - rewrite H0 in Hl. discriminate.
  - rewrite H1 in Hl. injection Hl as <-. simpl.
    destruct (previous_alarm_cases end_previous date_obj pl
                (DateTime date_obj ts) p subj)
      as [[Hnil _] | (q & s' & e' & tq & _ & Hq & _ & _ & Hone)].
    + rewrite Hnil in Hal. injection Hal as <-.
      rewrite app_nil_r. unfold first_alarm.
      destruct (before_first && is_first p _); simpl; lia.
    + rewrite Hone in Hal. injection Hal as <-.
      unfold first_alarm.
      destruct (is_first p (first_of (sorted (Dict.keys subjects)))) eqn:Ef.
      * apply is_first_eq, Hfirst in Ef.
        unfold Dict.contains in Ef. rewrite Hq in Ef. discriminate.
      * rewrite andb_false_r. simpl. lia.
Qed.

(** Every event of the export is an event of one of the stored days. *)
Lemma dates_loop_In (before_first end_previous : bool) (sd : schedule)
    (dates : list date) (evs : list event) (ev : event) :
  dates_loop before_first end_previous sd dates = inr evs -> In ev evs ->
  exists d dd devs,
    In d dates /\ Dict.get d sd = Some dd
    /\ day_events before_first end_previous d (subjects dd) = inr devs
    /\ In ev devs.
Proof.
  revert evs. induction dates as [|d dates IH]; simpl; intros evs Hl Hin.
  - injection Hl as <-. destruct Hin.
  - destruct (Dict.get d sd) as [dd|] eqn:Ed; [|discriminate].
    destruct (day_events before_first end_previous d (subjects dd))
      as [e|devs] eqn:Eday; [discriminate|]. simpl in Hl.
    destruct (dates_loop before_first end_previous sd dates)
      as [e|more] eqn:Emore; [discriminate|]. simpl in Hl.
    injection Hl as <-. apply in_app_or in Hin. destruct Hin as [Hin|Hin].
    + exists d, dd, devs. auto.
    + destruct (IH more eq_refl Hin) as (d' & dd' & devs' & H1 & H2 & H3 & H4).
      exists d', dd', devs'. auto.
Qed.

Lemma weeks_loop_In (before_first end_previous : bool) (sd : schedule)
    (weeks : list date) (evs : list event) (ev : event) :
  weeks_loop before_first end_previous sd weeks = inr evs -> In ev evs ->
  exists monday d dd devs,
    In monday weeks /\ In d (week_dates_of sd monday)
    /\ Dict.get d sd = Some dd
    /\ day_events before_first end_previous d (subjects dd) = inr devs
    /\ In ev devs.
Proof.
  revert evs. induction weeks as [|m weeks IH]; simpl; intros evs Hl Hin.
  - injection Hl as <-. destruct Hin.
  - destruct (dates_loop before_first end_previous sd (week_dates_of sd m))
      as [e|wevs] eqn:Ew; [discriminate|]. simpl in Hl.
    destruct (weeks_loop before_first end_previous sd weeks)
      as [e|more] eqn:Emore; [discriminate|]. simpl in Hl.
    injection Hl as <-. apply in_app_or in Hin. destruct Hin as [Hin|Hin].
    + destruct (dates_loop_In _ _ _ _ _ _ Ew Hin)
        as (d & dd & devs & H1 & H2 & H3 & H4).
      exists m, d, dd, devs. auto.
    + destruct (IH more eq_refl Hin)
        as (m' & d & dd & devs & H0 & H1 & H2 & H3 & H4).
      exists m', d, dd, devs. auto 6.
Qed.

(** The export raises nothing as long as every date it iterates over is a
    key of the table, which holds since the dates are taken from the keys. *)
Lemma dates_loop_total (before_first end_previous : bool) (sd : schedule)
    (dates : list date) :
  (forall d, In d dates -> In d (Dict.keys sd)) ->
  exists evs, dates_loop before_first end_previous sd dates = inr evs.
Proof.
  induction dates as [|d dates IH]; simpl; intros Hk.
  - now exists [].
  - destruct (Dict.get d sd) as [dd|] eqn:Ed.
    + destruct (day_events_items before_first end_previous d (subjects dd))
        as (devs & pl & _ & Hday & _).
      rewrite Hday. simpl.
      destruct IH as (more & Hmore); [intros; apply Hk; now right|].
      rewrite Hmore. simpl. eauto.
    + apply get_None in Ed. exfalso. apply Ed, Hk. now left.
Qed.

Lemma weeks_loop_total (before_first end_previous : bool) (sd : schedule)
    (weeks : list date) :
  exists evs, weeks_loop before_first end_previous sd weeks = inr evs.
Proof.
  induction weeks as [|m weeks (more & Hmore)]; simpl.
  - now exists [].
  - destruct (dates_loop_total before_first end_previous sd
                (week_dates_of sd m)) as (wevs & Hw).
    { intros d Hd. unfold week_dates_of in Hd. now apply filter_In in Hd. }
    rewrite Hw, Hmore. simpl. eauto.
Qed.

(** ** The parser *)

Section ParserFacts.
Variable U : ucd.

Lemma match_date_nil : match_date U [] = None.
Proof. reflexivity. Qed.

Lemma is_data_row_test (row : node) :
  is_data_row U row = inr (data_row_test U row).
Proof.
  unfold is_data_row, data_row_test.
  destruct (12 <=? List.length (find_all cell_names row))%nat eqn:E;
    [|reflexivity].
  destruct (find_all cell_names row) as [|c0 cells]; [discriminate|].
  unfold getitem, bind, ret. cbn [nth_error andb].
  destruct (strip U (get_text c0)) as [|c s] eqn:Es; [reflexivity|].
  now destruct (match_date U (c :: s)).
Qed.

Lemma data_rows_of_filter (rows : list node) :
  data_rows_of U rows = inr (filter (data_row_test U) rows).
Proof.
  induction rows as [|row rows IH]; simpl; [reflexivity|].
  rewrite is_data_row_test, IH. simpl. now destruct (data_row_test U row).
Qed.

Lemma set_In {K V : Type} `{EqKey K} (k k0 : K) (v v0 : V) (d : Dict.t K V) :
  In (k0, v0) (Dict.set k v d) -> (k0, v0) = (k, v) \/ In (k0, v0) d.
Proof.
  induction d as [|[k' v'] d IH]; simpl.
  - intros [E|[]]. left. now symmetry.
  - destruct (keqb_spec k k') as [->|ne]; simpl.
    + intros [E|Hin]; [left; now symmetry | right; now right].
    + intros [E|Hin]; [right; now left|].
      destruct (IH Hin); [now left | right; now right].
Qed.

Lemma set_not_nil {K V : Type} `{EqKey K} (k : K) (v : V) (d : Dict.t K V) :
  Dict.set k v d <> [].
Proof.
  destruct d as [|[k' v'] d]; simpl; [discriminate|].
  destruct (keqb k k'); discriminate.
Qed.

Lemma subject_lines_nonempty (text s : pystr) :
  In s (subject_lines_of U text) -> s <> [].
Proof.
  unfold subject_lines_of. rewrite in_flat_map. intros (line & _ & Hs).
  destruct (strip U line) as [|c l]; [destruct Hs|].
  destruct Hs as [<-|[]]. discriminate.
Qed.

Lemma subject_step_good (cells : list node) (ds : Dict.t Z pystr) (i : nat) :
  good_subjects ds ->
  exists ds', subject_step U cells ds i = inr ds' /\ good_subjects ds'.
Proof.
  intros Hg. unfold subject_step.
  destruct (Nat.ltb_spec i (List.length cells)); [|now exists ds].
  destruct (getitem_lt cells i H) as (c & Hc & _). rewrite Hc.
  unfold bind, ret.
  destruct (subject_lines_of U (strip U (get_text c))) as [|first rest] eqn:El;
    [now exists ds|].
  destruct (mem first ignore_subjects) eqn:Em; cbn [negb]; [now exists ds|].
  eexists. split; [reflexivity|].
  intros p s Hin. apply set_In in Hin. destruct Hin as [E|Hin]; [|eauto].
  injection E as -> ->. split.
  - apply (subject_lines_nonempty (strip U (get_text c))).
    rewrite El. now left.
  - intros Hin. apply mem_In in Hin. congruence.
Qed.

Lemma subject_loop_good (cells : list node) (columns : list nat)
    (ds : Dict.t Z pystr) :
  good_subjects ds ->
  exists ds', subject_loop U cells columns ds = inr ds' /\ good_subjects ds'.
Proof.
  revert ds. induction columns as [|i columns IH]; simpl; intros ds Hg.
  - now exists ds.
  - destruct (subject_step_good cells ds i Hg) as (ds1 & H1 & Hg1).
    rewrite H1. simpl. now apply IH.
Qed.

Lemma parse_row_outcome (sd : schedule) (row : node) :
  exists sd', parse_row U sd row = inr sd' /\ row_outcome U sd row sd'.
Proof.
  unfold parse_row.
  destruct (Nat.ltb_spec (List.length (find_all cell_names row)) 12) as [Hlt|Hge].
  { exists sd. split; [reflexivity | now apply row_short]. }
  destruct (find_all cell_names row) as [|c0 [|c1 rest]] eqn:Ecells;
    try (simpl in Hge; lia).
  unfold getitem, bind, ret. cbn [nth_error].
  destruct (match_date U (strip U (get_text c0))) as [[g1 g2]|] eqn:Em.
  2:{ exists sd. split; [reflexivity|]. now apply row_no_date with c0 (c1 :: rest). }
  destruct (date_new _ _ _) as [d|] eqn:Ed.
  2:{ exists sd. split; [reflexivity|].
      now apply row_invalid with c0 (c1 :: rest) g1 g2. }
  destruct (subject_loop_good (c0 :: c1 :: rest) (seq 2 10) Dict.empty)
    as (ds & Hds & Hg); [intros p s []|].
  rewrite Hds. destruct ds as [|item ds].
  - exists sd. split; [reflexivity|].
    apply row_empty with c0 (c1 :: rest) g1 g2 d; try assumption.
    now rewrite Ecells.
  - eexists. split; [reflexivity|].
    apply row_stored with c0 rest g1 g2; try assumption.
    + now rewrite Ecells.
    + discriminate.
Qed.

Lemma parse_row_inv (sd sd' : schedule) (row : node) :
  schedule_inv sd -> parse_row U sd row = inr sd' -> schedule_inv sd'.
Proof.
  intros Hinv Hrow.
  destruct (parse_row_outcome sd row) as (sd1 & H1 & Hout).
  rewrite Hrow in H1. injection H1 as <-.
  destruct Hout; try assumption.
  intros d' dd' Hin. apply set_In in Hin. destruct Hin as [E|Hin].
  - injection E as -> ->. simpl. split; assumption.
  - exact (Hinv d' dd' Hin).
Qed.

Lemma parse_rows_total (sd : schedule) (rows : list node) :
  exists sd', parse_rows U sd rows = inr sd'.
Proof.
  revert sd. induction rows as [|row rows IH]; intros sd; simpl.
  - now exists sd.
  - destruct (parse_row_outcome sd row) as (sd1 & H1 & _).
    rewrite H1. simpl. apply IH.
Qed.

Lemma parse_rows_inv (sd sd' : schedule) (rows : list node) :
  schedule_inv sd -> parse_rows U sd rows = inr sd' -> schedule_inv sd'.
Proof.
  revert sd. induction rows as [|row rows IH]; intros sd Hinv; simpl.
  - intros [= <-]. exact Hinv.
  - destruct (parse_row U sd row) as [e|sd1] eqn:E1; [discriminate|].
    simpl. apply IH. now apply parse_row_inv with sd row.
Qed.

(** With a table in the document, parsing is the row loop over the rows that
    pass the data-row test. *)
Lemma parse_schedule_found (soup table : node) (sd : schedule) :
  find "table" soup = Some table ->
  parse_schedule U soup sd
  = parse_rows U sd (filter (data_row_test U) (find_all ["tr"%string] table)).
Proof.
  intros Hf. unfold parse_schedule. rewrite Hf, data_rows_of_filter.
  reflexivity.
Qed.

End ParserFacts.

Lemma find_None (name : string) (soup : node) :
  find name soup = None <->
  ~ exists t, descendant t soup /\ named [name] t = true.
Proof.
  unfold find. split.
  - destruct (find_all [name] soup) as [|t l] eqn:E; [|discriminate].
    intros _ (t & Ht). apply find_all_spec in Ht. rewrite E in Ht. destruct Ht.
  - intros Hn. destruct (find_all [name] soup) as [|t l] eqn:E; [reflexivity|].
    exfalso. apply Hn. exists t. apply find_all_spec. rewrite E. now left.
Qed.

(** ** Weeks *)

Lemma monday_of_weekday (d : date) : weekday (monday_of d) = 0.
Proof.
  unfold monday_of, sub_days, weekday.
  pose proof (Z.div_mod (d + 6) 7 ltac:(lia)) as E.
  replace (d - (d + 6) mod 7 + 6) with ((d + 6) / 7 * 7) by lia.
  apply Z.mod_mul. lia.
Qed.

Lemma monday_of_range (d : date) :
  monday_of d <= d < add_days (monday_of d) 7.
Proof.
  pose proof (weekday_range d). unfold monday_of, sub_days, add_days. lia.
Qed.

(** A Monday whose week contains the date is the date's Monday. *)
Lemma monday_unique (m d : date) :
  weekday m = 0 -> m <= d < add_days m 7 -> monday_of d = m.
Proof.
  unfold weekday, monday_of, sub_days, add_days, weekday. intros Hm Hd.
  pose proof (Z.div_mod (m + 6) 7 ltac:(lia)) as E. rewrite Hm in E.
  assert (Hr : (d + 6) mod 7 = d - m).
  { symmetry. apply Z.mod_unique with ((m + 6) / 7); lia. }
  lia.
Qed.

Lemma grouped_empty : grouped Dict.empty [].
Proof.
  split; simpl; try discriminate; try contradiction.
Qed.

Lemma group_step_grouped (weeks : Dict.t date (list date)) (seen : list date)
    (d : date) :
  grouped weeks seen ->
  exists weeks', group_step weeks d = inr weeks' /\ grouped weeks' (seen ++ [d]).
Proof.
  intros [Hs Hc Hm Hn]. unfold group_step.
  set (monday := monday_of d).
  set (weeks1 := if negb (Dict.contains monday weeks)
                 then Dict.set monday [] weeks else weeks).
  assert (H1 : exists b, Dict.get monday weeks1 = Some b
                 /\ (Dict.get monday weeks = Some b
                     \/ (Dict.get monday weeks = None /\ b = []))).
  { unfold weeks1, Dict.contains.
    destruct (Dict.get monday weeks) as [b|] eqn:E; simpl.
    - exists b. rewrite E. auto.
    - exists []. rewrite get_set_eq. auto. }
  assert (H2 : forall m, m <> monday -> Dict.get m weeks1 = Dict.get m weeks).
  { intros m ne. unfold weeks1.
    destruct (negb (Dict.contains monday weeks)); [|reflexivity].
    now apply get_set_neq. }
  assert (H3 : forall m, In m (Dict.keys weeks1) ->
                         m = monday \/ In m (Dict.keys weeks)).
  { intros m. unfold weeks1.
    destruct (negb (Dict.contains monday weeks)); [|now right].
    now rewrite keys_set. }
  destruct H1 as (b & Hb & Hold). rewrite Hb.
  eexists. split; [reflexivity|]. split.
  - intros m b' d' Hg Hin.
    destruct (Z.eq_dec m monday) as [->|ne].
    + rewrite get_set_eq in Hg. injection Hg as <-.
      apply in_app_or in Hin. destruct Hin as [Hin|[<-|[]]].
      * destruct Hold as [Hold|[_ ->]]; [|destruct Hin].
        destruct (Hs _ _ _ Hold Hin). split; [assumption|].
        apply in_or_app. now left.
      * split; [reflexivity|]. apply in_or_app. right. now left.
    + rewrite get_set_neq, H2 in Hg by assumption.
      destruct (Hs _ _ _ Hg Hin). split; [assumption|].
      apply in_or_app. now left.
  - intros d' Hin. apply in_app_or in Hin.
    destruct (Z.eq_dec (monday_of d') monday) as [E|ne].
    + rewrite E, get_set_eq. eexists. split; [reflexivity|].
      apply in_or_app. destruct Hin as [Hin|[<-|[]]]; [left | right; now left].
      destruct (Hc d' Hin) as (b' & Hb' & Hin'). rewrite E in Hb'.
      destruct Hold as [Hold|[Hold _]]; congruence.
    + rewrite get_set_neq, H2 by assumption.
      destruct Hin as [Hin|[<-|[]]]; [now apply Hc | now elim ne].
  - intros m Hin. apply keys_set in Hin.
    destruct Hin as [->|Hin]; [apply monday_of_weekday|].
    apply H3 in Hin. destruct Hin as [->|Hin];
      [apply monday_of_weekday | now apply Hm].
  - intros m Hg. destruct (Z.eq_dec m monday) as [->|ne].
    + rewrite get_set_eq in Hg. injection Hg as Hg.
      now apply app_eq_nil in Hg as [_ Hg].
    + rewrite get_set_neq, H2 in Hg by assumption. now apply Hn in Hg.
Qed.

Lemma group_loop_grouped (weeks : Dict.t date (list date))
    (seen dates : list date) :
  grouped weeks seen ->
  exists weeks', group_loop weeks dates = inr weeks'
                 /\ grouped weeks' (seen ++ dates).
Proof.
  revert weeks seen. induction dates as [|d dates IH]; intros weeks seen Hg.
  - exists weeks. rewrite app_nil_r. now split.
  - simpl. destruct (group_step_grouped weeks seen d Hg) as (w1 & H1 & Hg1).
    rewrite H1. simpl.
    destruct (IH w1 (seen ++ [d]) Hg1) as (w2 & H2 & Hg2).
    exists w2. split; [exact H2|]. now rewrite <- app_assoc in Hg2.
Qed.

Lemma group_weeks_grouped (sd : schedule) :
  exists weeks, group_weeks sd = inr weeks
                /\ grouped weeks (sorted (Dict.keys sd)).
Proof.
  apply (group_loop_grouped Dict.empty [] _ grouped_empty).
Qed.

Lemma week_lookup_total (sd : schedule) (dates : list date) :
  (forall d, In d dates -> In d (Dict.keys sd)) ->
  exists l, week_lookup sd dates = inr l.
Proof.
  induction dates as [|d dates IH]; simpl; intros Hk; [now exists []|].
  destruct (Dict.get d sd) as [dd|] eqn:E.
  - destruct IH as (l & Hl); [intros; apply Hk; now right|].
    rewrite Hl. simpl. eauto.
  - apply get_None in E. exfalso. apply E, Hk. now left.
Qed.

Lemma week_var_loop_spec (sd : schedule) (weeks : Dict.t date (list date))
    (wv : Dict.t date bool) (mondays : list date) :
  (forall m, In m mondays ->
     exists b, Dict.get m weeks = Some b /\ b <> []
               /\ forall d, In d b -> In d (Dict.keys sd)) ->
  exists wv',
    week_var_loop sd weeks wv mondays = inr wv'
    /\ (forall m, In m (Dict.keys wv') <-> In m (Dict.keys wv) \/ In m mondays)
    /\ (forall m v, In (m, v) wv' -> In (m, v) wv \/ v = true).
Proof.
  revert wv. induction mondays as [|m mondays IH]; intros wv Hw; simpl.
  - exists wv. split; [reflexivity|]. split; [tauto | auto].
  - destruct (Hw m (or_introl eq_refl)) as (b & Hb & Hne & Hk).
    unfold week_var_step. rewrite Hb.
    assert (Hlen : (0 < List.length (sorted b))%nat).
    { rewrite <- (Permutation_length (sorted_perm b)).
      destruct b; [congruence | simpl; lia]. }
    destruct (getitem_lt _ _ Hlen) as (d0 & Hd0 & _). rewrite Hd0. simpl.
    destruct (week_lookup_total sd (sorted b)) as (l & Hl).
    { intros d Hd. apply Hk. now apply sorted_In. }
    rewrite Hl. simpl.
    destruct (IH (Dict.set m true wv)) as (wv' & Hwv' & Hkeys & Hvals).
    { intros m' Hm'. apply Hw. now right. }
    exists wv'. split; [exact Hwv'|]. split.
    + intros m'. rewrite Hkeys, keys_set. simpl. intuition.
    + intros m' v Hin. destruct (Hvals m' v Hin) as [Hin' | ->]; [|now right].
      apply set_In in Hin'. destruct Hin' as [E|Hin']; [|now left].
      injection E as -> ->. now right.
Qed.

(** [display_weeks] never raises; it ticks one box per week of the table. *)
Lemma display_weeks_spec (sd : schedule) :
  exists weeks week_vars,
    group_weeks sd = inr weeks
    /\ grouped weeks (sorted (Dict.keys sd))
    /\ display_weeks sd = inr week_vars
    /\ (forall m, In m (Dict.keys week_vars) <-> In m (Dict.keys weeks))
    /\ (forall m v, In (m, v) week_vars -> v = true).
Proof.
  destruct (group_weeks_grouped sd) as (weeks & Hw & Hg).
  destruct (week_var_loop_spec sd weeks Dict.empty (sorted (Dict.keys weeks)))
    as (wv & Hwv & Hkeys & Hvals).
  { intros m Hm. apply sorted_In, contains_keys, contains_get in Hm.
    destruct Hm as (b & Hb). exists b. split; [exact Hb|]. split.
    - intros ->. now apply (grouped_nonempty _ _ Hg) in Hb.
    - intros d Hd. apply sorted_In.
      now destruct (grouped_sound _ _ Hg _ _ _ Hb Hd). }
  exists weeks, wv. unfold display_weeks. rewrite Hw. simpl.
  split; [reflexivity|]. split; [exact Hg|]. split; [exact Hwv|]. split.
  - intros m. rewrite Hkeys, sorted_In. simpl. tauto.
  - intros m v Hin. now destruct (Hvals m v Hin) as [[]|].
Qed.

Section ParserShape.
Variable U : ucd.

Lemma subject_loop_wf (cells : list node) (columns : list nat)
    (ds ds' : Dict.t Z pystr) :
  Dict.wf ds -> subject_loop U cells columns ds = inr ds' -> Dict.wf ds'.
Proof.
  revert ds. induction columns as [|i columns IH]; simpl; intros ds Hwf.
  - now intros [= <-].
  - destruct (subject_step U cells ds i) as [e|ds1] eqn:E1; [discriminate|].
    simpl. apply IH. revert E1. unfold subject_step.
    destruct (i <? List.length cells)%nat; [|now intros [= <-]].
    destruct (getitem cells i) as [e|c]; [discriminate|]. unfold bind, ret.
    destruct (subject_lines_of U (strip U (get_text c))) as [|first rest];
      [now intros [= <-]|].
    destruct (negb (mem first ignore_subjects)); intros [= <-];
      [now apply wf_set | assumption].
Qed.

Lemma parse_row_wf (sd sd' : schedule) (row : node) :
  schedule_wf sd -> parse_row U sd row = inr sd' -> schedule_wf sd'.
Proof.
  intros [Hwf Hdays] Hrow.
  destruct (parse_row_outcome U sd row) as (sd1 & H1 & Hout).
  rewrite Hrow in H1. injection H1 as <-.
  destruct Hout; try (split; assumption).
  split; [now apply wf_set|].
  intros d' dd' Hin. apply set_In in Hin. destruct Hin as [E|Hin].
  - injection E as -> ->. simpl.
    eapply subject_loop_wf; [apply wf_empty | eassumption].
  - exact (Hdays d' dd' Hin).
Qed.

Lemma parse_rows_wf (sd sd' : schedule) (rows : list node) :
  schedule_wf sd -> parse_rows U sd rows = inr sd' -> schedule_wf sd'.
Proof.
  revert sd. induction rows as [|row rows IH]; intros sd Hwf; simpl.
  - now intros [= <-].
  - destruct (parse_row U sd row) as [e|sd1] eqn:E1; [discriminate|].
    simpl. apply IH. now apply parse_row_wf with sd row.
Qed.

(** Parsing keeps a well-formed table well formed. *)
Lemma parse_schedule_wf (soup : node) (sd sd' : schedule) :
  schedule_wf sd -> parse_schedule U soup sd = inr sd' -> schedule_wf sd'.
Proof.
  intros Hwf. unfold parse_schedule.
  destruct (find "table" soup) as [table|]; [|discriminate].
  rewrite data_rows_of_filter. simpl. now apply parse_rows_wf.
Qed.

(** Parsing never removes a date that is already in the table. *)
Lemma parse_rows_keeps (sd sd' : schedule) (rows : list node) (d : date) :
  parse_rows U sd rows = inr sd' ->
  In d (Dict.keys sd) -> In d (Dict.keys sd').
Proof.
  revert sd. induction rows as [|row rows IH]; intros sd; simpl.
  - now intros [= <-].
  - destruct (parse_row_outcome U sd row) as (sd1 & H1 & Hout).
    rewrite H1. simpl. intros Hrest Hin. apply (IH sd1 Hrest).
    destruct Hout; try assumption. apply keys_set. now right.
Qed.

Lemma parse_schedule_keeps (soup : node) (sd sd' : schedule) (d : date) :
  parse_schedule U soup sd = inr sd' ->
  In d (Dict.keys sd) -> In d (Dict.keys sd').
Proof.
  unfold parse_schedule.
  destruct (find "table" soup) as [table|]; [|discriminate].
  rewrite data_rows_of_filter. simpl. apply parse_rows_keeps.
Qed.

End ParserShape.

Lemma month_of_table (name : pystr) :
  let key := firstn 3 name in
  (exists i, nth_error german_months i = Some key
             /\ month_of name = Z.of_nat i + 1)
  \/ (~ In key german_months /\ month_of name = 1).
Proof.
  intros key. unfold month_of. fold key.
  destruct (Dict.get key month_map) as [m|] eqn:E.
  - left. apply get_Some_In in E. unfold month_map in E. simpl in E.
    repeat (destruct E as [E|E];
            [injection E as <- <-;
             first [ now exists 0%nat | now exists 1%nat | now exists 2%nat
                   | now exists 3%nat | now exists 4%nat | now exists 5%nat
                   | now exists 6%nat | now exists 7%nat | now exists 8%nat
                   | now exists 9%nat | now exists 10%nat | now exists 11%nat ]
            |]).
    destruct E.
  - right. apply get_None in E. split; [exact E | reflexivity].
Qed.

Lemma month_of_range (name : pystr) : 1 <= month_of name <= 12.
Proof.
  destruct (month_of_table name) as [(i & Hi & ->)|[_ ->]]; [|lia].
  assert (Hlt : (i < List.length german_months)%nat).
  { apply nth_error_Some. congruence. }
  simpl in Hlt. lia.
Qed.

Lemma named_table (t : node) :
  named ["table"%string] t = true <-> exists ch, t = Tag "table" ch.
Proof.
  destruct t as [s|nm ch]; simpl.
  - split; [discriminate | intros (ch & H); discriminate].
  - rewrite orb_false_r, String.eqb_eq. split.
    + intros ->. now exists ch.
    + intros (ch' & [= -> _]). reflexivity.
Qed.

Lemma none_selected (week_vars : Dict.t date bool) :
  (forall m v, In (m, v) week_vars -> v = false) ->
  selected_weeks_of week_vars = [].
Proof.
  unfold selected_weeks_of.
  induction week_vars as [|[m v] wv IH]; intros Hall; [reflexivity|]. simpl.
  rewrite (Hall m v (or_introl eq_refl)). apply IH.
  intros m' v' Hin. apply (Hall m' v'). now right.
Qed.

(** A data row writes at most one entry, the same whatever the table holds. *)
Lemma parse_row_update (U : ucd) (row : node) :
  exists upd, forall sd, parse_row U sd row = inr (store upd sd).
Proof.
  unfold parse_row.
  destruct (Nat.ltb_spec (List.length (find_all cell_names row)) 12) as [Hlt|Hge];
    [now exists None|].
  destruct (find_all cell_names row) as [|c0 [|c1 rest]] eqn:Ecells;
    try (simpl in Hge; lia).
  unfold getitem, bind, ret. cbn [nth_error].
  destruct (match_date U (strip U (get_text c0))) as [[g1 g2]|];
    [|now exists None].
  destruct (date_new _ _ _) as [d|]; [|now exists None].
  destruct (subject_loop_good U (c0 :: c1 :: rest) (seq 2 10) Dict.empty)
    as (ds & Hds & _); [intros p s []|].
  rewrite Hds. destruct ds as [|item ds]; [now exists None|].
  now exists (Some (d, DayData (strip U (get_text c1)) (item :: ds))).
Qed.

Lemma parse_rows_updates (U : ucd) (rows : list node) :
  exists upds, forall sd, parse_rows U sd rows = inr (store_all upds sd).
Proof.
  induction rows as [|row rows (upds & IH)]; simpl.
  - now exists [].
  - destruct (parse_row_update U row) as (upd & Hupd).
    exists (upd :: upds). intros sd. rewrite Hupd. simpl. apply IH.
Qed.

Lemma parse_schedule_updates (U : ucd) (soup : node) (sd0 : schedule) :
  parse_schedule U soup Dict.empty = inr sd0 ->
  exists upds, forall sd, parse_schedule U soup sd = inr (store_all upds sd).
Proof.
  unfold parse_schedule.
  destruct (find "table" soup) as [table|]; [|discriminate]. intros _.
  rewrite data_rows_of_filter. simpl. apply parse_rows_updates.
Qed.

(** After the updates, a date has the entry the updates alone give it, or
    else the entry it had. *)
Lemma store_all_get (upds : list (option (date * day_data))) (sd : schedule)
    (d : date) :
  Dict.get d (store_all upds sd)
  = match Dict.get d (store_all upds Dict.empty) with
    | Some dd => Some dd
    | None => Dict.get d sd
    end.
Proof.
  revert sd. induction upds as [|upd upds IH]; intros sd; [reflexivity|].
  change (store_all (upd :: upds) sd) with (store_all upds (store upd sd)).
  change (store_all (upd :: upds) Dict.empty)
    with (store_all upds (store upd Dict.empty)).
  rewrite IH, (IH (store upd Dict.empty)).
  destruct (Dict.get d (store_all upds Dict.empty)); [reflexivity|].
  destruct upd as [[d0 dd0]|]; [|reflexivity]. unfold store.
  destruct (Z.eq_dec d d0) as [->|ne].
  - now rewrite !get_set_eq.
  - now rewrite !get_set_neq.
Qed.

(** ** Trimming and splitting *)

Section StripFacts.
Variable U : ucd.

Lemma lstrip_suffix (s : pystr) : exists pre, s = pre ++ lstrip U s.
Proof.
  induction s as [|c s (pre & IH)]; simpl; [now exists []|].
  destruct (isspace U c).
  - exists (c :: pre). simpl. now f_equal.
  - now exists [].
Qed.

Lemma lstrip_head (s r : pystr) (c : N) :
  lstrip U s = c :: r -> isspace U c = false.
Proof.
  induction s as [|c0 s IH]; simpl; [discriminate|].
  destruct (isspace U c0) eqn:E; [exact IH|]. now intros [= <- _].
Qed.

Lemma rstrip_prefix (s : pystr) : exists suf, s = rstrip U s ++ suf.
Proof.
  unfold rstrip. destruct (lstrip_suffix (rev s)) as (pre & E).
  exists (rev pre). rewrite <- rev_app_distr, <- E. now rewrite rev_involutive.
Qed.

Lemma rstrip_last (s r : pystr) (c : N) :
  rstrip U s = r ++ [c] -> isspace U c = false.
Proof.
  unfold rstrip. intros E. apply (f_equal (@rev N)) in E.
  rewrite rev_involutive, rev_app_distr in E. simpl in E.
  now apply lstrip_head in E.
Qed.

Lemma strip_In (s : pystr) (c : N) : In c (strip U s) -> In c s.
Proof.
  unfold strip. intros Hin.
  destruct (rstrip_prefix (lstrip U s)) as (suf & E1).
  destruct (lstrip_suffix s) as (pre & E2).
  rewrite E2, E1. apply in_or_app. right. apply in_or_app. now left.
Qed.

Lemma strip_head (s r : pystr) (c : N) :
  strip U s = c :: r -> isspace U c = false.
Proof.
  unfold strip. intros E.
  destruct (rstrip_prefix (lstrip U s)) as (suf & E1).
  rewrite E in E1. simpl in E1. now apply lstrip_head in E1.
Qed.

Lemma strip_last (s r : pystr) (c : N) :
  strip U s = r ++ [c] -> isspace U c = false.
Proof. unfold strip. apply rstrip_last. Qed.

Lemma split_lines_no_newline (s line : pystr) :
  In line (split_lines s) -> ~ In 10%N line.
Proof.
  revert line. induction s as [|c s IH]; simpl; intros line.
  - intros [<-|[]] [].
  - destruct (N.eqb_spec c 10) as [->|ne].
    + intros [<-|Hin]; [intros [] | now apply IH].
    + destruct (split_lines s) as [|l ls]; simpl.
      * intros [<-|[]] [E|[]]. congruence.
      * intros [<-|Hin]; [|apply IH; now right].
        intros [E|Hin]; [congruence|]. apply (IH l); [now left | exact Hin].
Qed.

(** The lines a cell is read into are trimmed single lines. *)
Lemma subject_lines_trimmed (text s : pystr) :
  In s (subject_lines_of U text) -> trimmed U s.
Proof.
  unfold subject_lines_of. rewrite in_flat_map. intros (line & Hline & Hs).
  destruct (strip U line) as [|c l] eqn:E; [destruct Hs|].
  destruct Hs as [<-|[]]. rewrite <- E.
  split; [rewrite E; discriminate|]. split; [|split].
  - intros c' r. apply strip_head.
  - intros r c'. apply strip_last.
  - intros Hin. apply strip_In in Hin.
    now apply (split_lines_no_newline text line).
Qed.

Lemma set_new {V : Type} (k : Z) (v : V) (d : Dict.t Z V) :
  ~ In k (Dict.keys d) -> Dict.set k v d = d ++ [(k, v)].
Proof.
  induction d as [|[k' v'] d IH]; simpl; intros Hn; [reflexivity|].
  destruct (Z.eqb_spec k k') as [->|ne]; [exfalso; apply Hn; now left|].
  f_equal. apply IH. intros Hin. apply Hn. now right.
Qed.

Lemma cell_subject_keys (cells : list node) (i : nat) (p : Z) :
  In p (Dict.keys (cell_subject U cells i)) -> p = Z.of_nat i - 1.
Proof.
  unfold cell_subject. destruct (nth_error cells i); [|intros []].
  destruct (subject_lines_of U _) as [|first rest]; [intros []|].
  destruct (mem first ignore_subjects); [intros []|].
  now intros [<-|[]].
Qed.

Lemma subject_step_closed (cells : list node) (ds : Dict.t Z pystr) (i : nat) :
  (forall p, In p (Dict.keys ds) -> p < Z.of_nat i - 1) ->
  subject_step U cells ds i = inr (ds ++ cell_subject U cells i).
Proof.
  intros Hlt. unfold subject_step, cell_subject.
  destruct (Nat.ltb_spec i (List.length cells)) as [Hi|Hi].
  - destruct (getitem_lt cells i Hi) as (c & Hc & Hn). rewrite Hc, Hn.
    unfold bind, ret.
    destruct (subject_lines_of U (strip U (get_text c))) as [|first rest];
      [now rewrite app_nil_r|].
    destruct (mem first ignore_subjects); cbn [negb];
      [now rewrite app_nil_r|].
    f_equal. apply set_new. intros Hin. specialize (Hlt _ Hin). lia.
  - apply nth_error_None in Hi. rewrite Hi. now rewrite app_nil_r.
Qed.

Lemma subject_loop_closed (cells : list node) (n a : nat)
    (ds : Dict.t Z pystr) :
  (forall p, In p (Dict.keys ds) -> p < Z.of_nat a - 1) ->
  subject_loop U cells (seq a n) ds
  = inr (ds ++ flat_map (cell_subject U cells) (seq a n)).
Proof.
  revert a ds. induction n as [|n IH]; intros a ds Hlt; simpl.
  - now rewrite app_nil_r.
  - rewrite (subject_step_closed cells ds a Hlt). simpl.
    rewrite IH, <- app_assoc; [reflexivity|].
    intros p Hin. unfold Dict.keys in Hin. rewrite map_app in Hin.
    apply in_app_or in Hin. destruct Hin as [Hin|Hin].
    + specialize (Hlt p Hin). lia.
    + apply cell_subject_keys in Hin. lia.
Qed.

Lemma cell_subjects_sorted (cells : list node) (n a : nat) :
  StronglySorted Z.lt
    (Dict.keys (flat_map (cell_subject U cells) (seq a n)))
  /\ forall p, In p (Dict.keys (flat_map (cell_subject U cells) (seq a n))) ->
               Z.of_nat a - 1 <= p < Z.of_nat (a + n) - 1.
Proof.
  revert a. induction n as [|n IH]; intros a; simpl.
  - split; [constructor | intros p []].
  - destruct (IH (S a)) as [Hs Hr].
    assert (Hk : forall p, In p (Dict.keys (cell_subject U cells a)) ->
                           p = Z.of_nat a - 1)
      by apply cell_subject_keys.
    unfold Dict.keys in *. rewrite map_app. split.
    + destruct (map fst (cell_subject U cells a)) as [|k [|k' l]] eqn:E.
      * exact Hs.
      * simpl. constructor; [exact Hs|]. apply Forall_forall.
        intros p Hp. specialize (Hr p Hp).
        specialize (Hk k (or_introl eq_refl)). lia.
      * exfalso. revert E. unfold cell_subject.
        destruct (nth_error cells a); [|discriminate].
        destruct (subject_lines_of U _); [discriminate|].
        destruct (mem _ _); discriminate.
    + intros p Hin. apply in_app_or in Hin. destruct Hin as [Hin|Hin].
      * specialize (Hk p Hin). lia.
      * specialize (Hr p Hin). lia.
Qed.

Lemma cell_subject_good (cells : list node) (i : nat) (p : Z) (s : pystr) :
  In (p, s) (cell_subject U cells i) ->
  trimmed U s /\ ~ In s ignore_subjects.
Proof.
  unfold cell_subject.
  destruct (nth_error cells i) as [c|]; [|intros []].
  destruct (subject_lines_of U (strip U (get_text c))) as [|first rest] eqn:El;
    [intros []|].
  destruct (mem first ignore_subjects) eqn:Em; [intros []|].
  intros [[= <- <-]|[]]. split.
  - apply (subject_lines_trimmed (strip U (get_text c))). rewrite El. now left.
  - intros Hin. apply mem_In in Hin. congruence.
Qed.

End StripFacts.

(** ** A data row, in closed form *)

Section RowFacts.
Variable U : ucd.

(** The first entry of [subject_lines_of] is the first line that is not
    blank, trimmed. *)
Lemma subject_lines_first (text s : pystr) (more : list pystr) :
  subject_lines_of U text = s :: more ->
  exists before line after,
    split_lines text = before ++ line :: after
    /\ Forall (fun l => strip U l = []) before
    /\ s = strip U line /\ s <> [].
Proof.
  unfold subject_lines_of. generalize (split_lines text) as ls.
  induction ls as [|l ls IH]; simpl; [discriminate|].
  destruct (strip U l) as [|c r] eqn:E; simpl.
  - intros H. destruct (IH H) as (before & line & after & -> & Hb & Hs & Hne).
    exists (l :: before), line, after. repeat split; try assumption.
    now constructor.
  - intros [= <- _]. exists [], l, ls. repeat split; try assumption.
    + constructor.
    + now symmetry.
    + discriminate.
Qed.

Lemma first_subject_line (text line : pystr) (before after : list pystr) :
  split_lines text = before ++ line :: after ->
  Forall (fun l => strip U l = []) before ->
  strip U line <> [] ->
  exists more, subject_lines_of U text = strip U line :: more.
Proof.
  unfold subject_lines_of. intros -> Hb Hne.
  induction Hb as [|l before Hl _ IH]; simpl.
  - destruct (strip U line) as [|c r]; [congruence|]. simpl. eauto.
  - rewrite Hl. simpl. exact IH.
Qed.

(** What [parse_row] returns for a row that passes the data-row test. *)
Lemma parse_row_closed (sd : schedule) (row c0 c1 : node) (rest : list node)
    (g1 g2 : pystr) :
  find_all cell_names row = c0 :: c1 :: rest ->
  (12 <= List.length (c0 :: c1 :: rest))%nat ->
  match_date U (strip U (get_text c0)) = Some (g1, g2) ->
  parse_row U sd row
  = inr match date_new (year_of (month_of (lower U g2)))
                       (month_of (lower U g2)) (int_of U g1) with
        | None => sd
        | Some d =>
            match flat_map (cell_subject U (c0 :: c1 :: rest)) (seq 2 10) with
            | [] => sd
            | item :: items =>
                Dict.set d (DayData (strip U (get_text c1)) (item :: items)) sd
            end
        end.
Proof.
  intros Hcells Hlen Hmatch. unfold parse_row. rewrite Hcells.
  destruct (Nat.ltb_spec (List.length (c0 :: c1 :: rest)) 12) as [Hlt|_];
    [lia|].
  unfold getitem, bind, ret. cbn [nth_error]. rewrite Hmatch.
  destruct (date_new _ _ _) as [d|]; [|reflexivity].
  rewrite (subject_loop_closed U (c0 :: c1 :: rest) 10 2 Dict.empty)
    by (intros p []).
  change (Dict.empty ++ flat_map (cell_subject U (c0 :: c1 :: rest)) (seq 2 10))
    with (flat_map (cell_subject U (c0 :: c1 :: rest)) (seq 2 10)).
  now destruct (flat_map (cell_subject U (c0 :: c1 :: rest)) (seq 2 10)).
Qed.

(** A date that a row of the loop writes is a key of the table afterwards. *)
Lemma parse_rows_stores (rows : list node) (row : node) (sd0 sd1 : schedule)
    (d : date) :
  In row rows ->
  (forall sd, exists sd', parse_row U sd row = inr sd'
                          /\ In d (Dict.keys sd')) ->
  parse_rows U sd0 rows = inr sd1 -> In d (Dict.keys sd1).
Proof.
  intros Hin Hrow. revert sd0.
  induction rows as [|r rows IH]; [destruct Hin|]. intros sd0. simpl.
  destruct (parse_row U sd0 r) as [e|sd] eqn:E; [discriminate|]. simpl.
  intros Hrest. destruct Hin as [->|Hin]; [|now apply (IH Hin sd)].
  destruct (Hrow sd0) as (sd' & Hsd' & Hd). rewrite E in Hsd'.
  injection Hsd' as <-. now apply (parse_rows_keeps U sd sd1 rows d Hrest).
Qed.

Lemma data_row_test_passed (row c0 : node) (rest : list node) (g : pystr * pystr) :
  find_all cell_names row = c0 :: rest ->
  (12 <= List.length (c0 :: rest))%nat ->
  match_date U (strip U (get_text c0)) = Some g ->
  data_row_test U row = true.
Proof.
  intros Hcells Hlen Hmatch. unfold data_row_test. rewrite Hcells, Hmatch.
  rewrite andb_true_r. now apply Nat.leb_le.
Qed.

End RowFacts.

(* ================================================================== *)
(** * The claims *)

(** C1.  The claim: a Friday whose only lesson is in period 7 gives no
    calendar event, period 7 being absent from the Friday table.  In the
    code [friday_times] has an entry for period 7 (13:00 to 14:30, under the
    comment "skip this"), so the lesson is exported: on Friday 5 September
    2025 the event builder returns one event, from 13:00 to 14:30. *)
Theorem friday_period7_is_exported :
  date_new 2025 9 5 = Some sep_5
  /\ weekday sep_5 = 4
  /\ Dict.get 7 friday_times = Some ("13:00", "14:30")%string
  /\ day_events true true sep_5 friday_ilias
     = inr [Event (lit "ILIAS")
                  (DateTime sep_5 (Time 13 0)) (DateTime sep_5 (Time 14 30))
                  (lit "Berufsschule - Period 7")
                  [Alarm "DISPLAY" (lit "First lesson starting soon: ILIAS")
                         (-15)]].
Proof. repeat split; reflexivity. Qed.

(** C2, as the claim has it: after loading the plan of 2 September and
    then the plan of 3 September, the table would be, as a mapping, the
    table that the second plan alone gives.  It is not: it still holds
    2 September. *)
Lemma reload_is_not_replacement :
  ~ (exists sd_alone,
       parse_schedule latin1 soup_deutsch Dict.empty = inr sd_alone
       /\ forall d, Dict.get d (schedule_data st_reloaded)
                    = Dict.get d sd_alone).
Proof.
  intros (sd_alone & Halone & Heq).
  vm_compute in Halone. injection Halone as <-.
  specialize (Heq sep_2). vm_compute in Heq. discriminate.
Qed.

(** C2, amended.  Loading a file into a converter that already holds a
    table merges: afterwards a date has the day the new file alone gives for
    it, when it gives one, and otherwise the entry it had before, so no
    earlier date is dropped; the table is that of the new file alone when it
    was empty before the load. *)
Theorem reload_merges (U : ucd) (st : state) (path : string) (soup : node)
    (sd_alone : schedule) :
  html_file st = Some path ->
  parse_schedule U soup Dict.empty = inr sd_alone ->
  (forall d,
     Dict.get d (schedule_data (fst (load_schedule U st (inr soup))))
     = match Dict.get d sd_alone with
       | Some dd => Some dd
       | None => Dict.get d (schedule_data st)
       end)
  /\ (forall d, In d (Dict.keys (schedule_data st)) ->
         In d (Dict.keys (schedule_data (fst (load_schedule U st (inr soup))))))
  /\ snd (load_schedule U st (inr soup))
     = [ShowInfo "Schedule loaded successfully!"]
  /\ (schedule_data st = [] ->
      schedule_data (fst (load_schedule U st (inr soup))) = sd_alone).
Proof.
  intros Hfile Halone.
  destruct (parse_schedule_updates U soup sd_alone Halone) as (upds & Hupds).
  pose proof (Hupds Dict.empty) as Hempty. rewrite Halone in Hempty.
  injection Hempty as Hempty.
  unfold load_schedule. rewrite Hfile, Hupds.
  destruct (display_weeks_spec (store_all upds (schedule_data st)))
    as (weeks & wv & _ & _ & Hwv & _).
  rewrite Hwv. simpl. split; [|split; [|split]].
  - intros d. rewrite Hempty. apply store_all_get.
  - intros d Hd. apply contains_keys, contains_get.
    apply contains_keys, contains_get in Hd. destruct Hd as (dd & Hdd).
    rewrite store_all_get.
    destruct (Dict.get d (store_all upds Dict.empty)) as [dd'|]; eauto.
  - reflexivity.
  - intros ->. now rewrite Hempty.
Qed.

Lemma reload_merges_witness :
  Dict.keys (schedule_data st_mathe) = [sep_2]
  /\ Dict.keys (schedule_data st_reloaded) = [sep_2; sep_3]
  /\ forall d,
       Dict.get d (schedule_data st_reloaded)
       = match Dict.get d [(sep_3, DayData (lit "Mi") [(3, lit "Deutsch")])] with
         | Some dd => Some dd
         | None => Dict.get d (schedule_data st_mathe)
         end.
Proof.
  split; [reflexivity|]. split; [reflexivity|].
  exact (proj1 (reload_merges latin1 (browse_file st_mathe "plan.html")
                  "plan.html" soup_deutsch
                  [(sep_3, DayData (lit "Mi") [(3, lit "Deutsch")])]
                  eq_refl eq_refl)).
Defined.

(** C3.  With both reminders on, the event of the least period of the day
    carries an alarm 15 minutes before its start; the event of a period
    whose preceding period of the day has a time slot carries an alarm as
    many minutes before its start as lie between the end of the preceding
    lesson and this start, so the alarm falls on that end (and on the start
    itself when the two lessons touch).  For a day with the periods 1, 3
    and 6, the alarm of period 3 falls on the end of period 1. *)
Theorem alarm_timing (date_obj : date) :
  (forall subjects : Dict.t Z pystr,
     Dict.wf subjects ->
     exists evs,
       day_events true true date_obj subjects = inr evs
       /\ forall p subj s e,
            In (p, subj) subjects ->
            mem subj ignore_subjects = false ->
            Dict.get p (time_schedule_of date_obj) = Some (s, e) ->
            exists ev ts,
              In ev evs
              /\ summary ev = subj
              /\ description ev = lit "Berufsschule - Period " ++ str_of_int p
              /\ strptime_HM s = inr ts
              /\ dtstart ev = DateTime date_obj ts
              /\ ((forall k, In k (Dict.keys subjects) -> p <= k) ->
                  exists a, In a (alarms ev) /\ trigger a = -15)
              /\ (forall q s' e' tq,
                    precedes (Dict.keys subjects) q p ->
                    Dict.get q (time_schedule_of date_obj) = Some (s', e') ->
                    strptime_HM e' = inr tq ->
                    exists a,
                      In a (alarms ev)
                      /\ trigger a = - (minute_of_day ts - minute_of_day tq)
                      /\ minute_of_day ts + trigger a = minute_of_day tq
                      /\ (minute_of_day ts = minute_of_day tq -> trigger a = 0)))
  /\ (forall a b c : pystr,
        mem a ignore_subjects = false ->
        mem b ignore_subjects = false ->
        exists e1 e3 a1 a3 rest,
          day_events true true date_obj [(1, a); (3, b); (6, c)]
          = inr (e1 :: e3 :: rest)
          /\ summary e1 = a /\ summary e3 = b
          /\ alarms e1 = [a1] /\ trigger a1 = -15
          /\ alarms e3 = [a3]
          /\ minute_of_day (dt_time (dtstart e3)) + trigger a3
             = minute_of_day (dt_time (dtend e1))).
Proof.
  split.
  - intros subjects Hwf.
    destruct (day_events_spec true true date_obj subjects Hwf)
      as (evs & pl & Hday & Hin & Hfirst & Hprev).
    exists evs. split; [exact Hday|].
    intros p subj s e Hitem Hmem Hslot.
    destruct (lesson_events_cases true true date_obj
                (first_of (sorted (Dict.keys subjects))) pl p subj)
      as [[_ [Hm|Hn]] | (s0 & e0 & ts & te & al & _ & Hs0 & Hts & Hte & Hal & H1)];
      try congruence.
    rewrite Hslot in Hs0. injection Hs0 as <- <-.
    eexists; exists ts. split; [apply Hin; exists p, subj; split; eassumption|].
    simpl. repeat (split; [reflexivity || assumption|]). split.
    + intros Hleast.
      assert (Hf : first_of (sorted (Dict.keys subjects)) = Some p).
      { apply least_first_of_sorted; [|exact Hleast].
        change p with (fst (p, subj)). now apply in_map. }
      unfold first_alarm. rewrite Hf. simpl. rewrite Z.eqb_refl.
      eexists. split; [now left | reflexivity].
    + intros q s' e' tq Hq Hqs Htq. apply Hprev in Hq.
      destruct (previous_alarm_cases true date_obj pl (DateTime date_obj ts)
                  p subj)
        as [[_ [Hf|[Hnone|(q' & Hq' & Hnos)]]]
           | (q' & s2 & e2 & tq' & _ & Hq' & Hs2 & Htq' & Hone)];
        try congruence.
      assert (q' = q) by congruence. subst q'.
      rewrite Hqs in Hs2. injection Hs2 as <- <-.
      rewrite Htq in Htq'. injection Htq' as <-.
      rewrite Hone in Hal. injection Hal as <-.
      rewrite minutes_diff_same_day.
      eexists. split; [apply in_or_app; right; now left|].
      simpl. repeat split; lia.
  - intros a b c Ha Hb. unfold day_events, time_schedule_of.
    destruct (weekday date_obj =? 4);
      cbv -[mem ignore_subjects total_seconds Z.quot];
      rewrite Ha, Hb; destruct (mem c ignore_subjects);
      rewrite ?minutes_diff_same_day; repeat eexists; reflexivity.
Qed.

Lemma alarm_timing_witness :
  exists e1 e3 a1 a3 rest,
    day_events true true sep_2 day_136 = inr (e1 :: e3 :: rest)
    /\ summary e1 = lit "Mathe" /\ summary e3 = lit "Deutsch"
    /\ alarms e1 = [a1] /\ trigger a1 = -15
    /\ alarms e3 = [a3]
    /\ minute_of_day (dt_time (dtstart e3)) + trigger a3
       = minute_of_day (dt_time (dtend e1)).
Proof.
  exact (proj2 (alarm_timing sep_2) (lit "Mathe") (lit "Deutsch") (lit "Sport")
               eq_refl eq_refl).
Defined.

(** C4, as the claim has it: the row of 2 September gives one day with
    period 1, and its export is one event with two alarms, of 15 minutes
    and of 0 minutes.  The export has no such event. *)
Lemma scenario_A_has_no_second_alarm :
  ~ (parse_schedule latin1 soup_mathe Dict.empty
     = inr [(sep_2, DayData (lit "Di") [(1, lit "Mathe")])]
     /\ exists cal ev a1 a2,
          build_calendar st_mathe (selected_weeks_of (week_vars st_mathe))
          = inr cal
          /\ events cal = [ev]
          /\ alarms ev = [a1; a2]
          /\ trigger a1 = -15 /\ trigger a2 = 0).
Proof.
  intros (_ & cal & ev & a1 & a2 & Hcal & Hev & Hal & _).
  vm_compute in Hcal. injection Hcal as <-.
  simpl in Hev. injection Hev as <-. discriminate Hal.
Qed.

(** C4, amended.  The row "02. Sep", "Di", "Mathe" with ignored subjects in
    the other columns gives one day, 2 September 2025, with the single lesson
    "Mathe" in period 1; exporting it with both reminders on writes one
    event, from 08:00 to 09:30, with exactly one alarm, 15 minutes before the
    start: period 1 has no previous period, so no second alarm is attached. *)
Theorem scenario_A_single_alarm :
  date_new 2025 9 2 = Some sep_2
  /\ parse_schedule latin1 soup_mathe Dict.empty
     = inr [(sep_2, DayData (lit "Di") [(1, lit "Mathe")])]
  /\ schedule_data st_mathe = [(sep_2, DayData (lit "Di") [(1, lit "Mathe")])]
  /\ reminder_before_first st_mathe = true
  /\ reminder_end_previous st_mathe = true
  /\ exists cal ev,
       generate_ics st_mathe "plan.ics" (inr tt)
       = inr [WriteFile "plan.ics" cal;
              ShowInfo "Calendar saved successfully to plan.ics"]
       /\ events cal = [ev]
       /\ summary ev = lit "Mathe"
       /\ dtstart ev = DateTime sep_2 (Time 8 0)
       /\ dtend ev = DateTime sep_2 (Time 9 30)
       /\ alarms ev
          = [Alarm "DISPLAY" (lit "First lesson starting soon: Mathe") (-15)].
Proof.
  repeat (split; [reflexivity|]).
  eexists. eexists. repeat split; reflexivity.
Qed.

(** C5.  For a data row (at least 12 cells, the first matching the date
    pattern with the day digits [g1] and the month word [g2]): the month
    number is the position of the first three characters of the lower-cased
    word in the German table, or 1 when they are not in it, so it depends on
    the word only up to case; the year is 2025 from August on and 2026
    before; when day and month are no calendar date the row leaves the
    table as it is; otherwise nothing but the entry of that date changes,
    and when a period of the row survives, the row's day is stored under
    the date [date(year, month, day)], so that the date is a key of the
    table after the parse of any document whose table has the row. *)
Theorem month_year_resolution (U : ucd) (sd : schedule) (row c0 c1 : node)
    (rest : list node) (g1 g2 : pystr) :
  find_all cell_names row = c0 :: c1 :: rest ->
  (12 <= List.length (c0 :: c1 :: rest))%nat ->
  match_date U (strip U (get_text c0)) = Some (g1, g2) ->
  let key := firstn 3 (lower U g2) in
  let month_num := month_of (lower U g2) in
  let year := year_of month_num in
  let day_num := int_of U g1 in
  let day_text := strip U (get_text c1) in
  let day_schedule :=
    flat_map (cell_subject U (c0 :: c1 :: rest)) (seq 2 10) in
  ((exists i, nth_error german_months i = Some key
              /\ month_num = Z.of_nat i + 1)
   \/ (~ In key german_months /\ month_num = 1))
  /\ 1 <= month_num <= 12
  /\ (forall g2', lower U g2' = lower U g2 -> month_of (lower U g2') = month_num)
  /\ (8 <= month_num -> year = 2025)
  /\ (month_num < 8 -> year = 2026)
  /\ (date_new year month_num day_num = None
      <-> ~ (1 <= day_num <= days_in_month year month_num))
  /\ (date_new year month_num day_num = None -> parse_row U sd row = inr sd)
  /\ (forall d, date_new year month_num day_num = Some d ->
        d = ymd2ord year month_num day_num
        /\ (exists sd', parse_row U sd row = inr sd'
              /\ forall d', d' <> d -> Dict.get d' sd' = Dict.get d' sd)
        /\ (day_schedule = [] -> parse_row U sd row = inr sd)
        /\ (day_schedule <> [] ->
            parse_row U sd row
            = inr (Dict.set d (DayData day_text day_schedule) sd)
            /\ Dict.get d (Dict.set d (DayData day_text day_schedule) sd)
               = Some (DayData day_text day_schedule)
            /\ forall soup table sd0 sd1,
                 find "table" soup = Some table ->
                 In row (find_all ["tr"%string] table) ->
                 parse_schedule U soup sd0 = inr sd1 ->
                 In d (Dict.keys sd1))).
Proof.
  intros Hcells Hlen Hmatch key month_num year day_num day_text day_schedule.
  pose proof (month_of_range (lower U g2)) as Hrange. fold month_num in Hrange.
  assert (Hyear : year = 2025 \/ year = 2026).
  { unfold year, year_of. destruct (8 <=? month_num); auto. }
  assert (Hnew : date_new year month_num day_num
                 = if (1 <=? day_num) && (day_num <=? days_in_month year month_num)
                   then Some (ymd2ord year month_num day_num) else None).
  { unfold date_new.
    rewrite (proj2 (Z.leb_le 1 year)), (proj2 (Z.leb_le year 9999)),
      (proj2 (Z.leb_le 1 month_num)), (proj2 (Z.leb_le month_num 12)) by lia.
    reflexivity. }
  assert (Hclosed : forall sd, parse_row U sd row
            = inr match date_new year month_num day_num with
                  | None => sd
                  | Some d =>
                      match day_schedule with
                      | [] => sd
                      | item :: items =>
                          Dict.set d (DayData day_text (item :: items)) sd
                      end
                  end).
  { intros sd2. exact (parse_row_closed U sd2 row c0 c1 rest g1 g2
                         Hcells Hlen Hmatch). }
  split; [apply month_of_table|]. split; [exact Hrange|].
  split; [intros g2' ->; reflexivity|].
  split; [unfold year, year_of; intros H8;
          apply Z.leb_le in H8; now rewrite H8|].
  split; [unfold year, year_of; intros H8;
          apply Z.leb_gt in H8; now rewrite H8|].
  split; [|split].
  - rewrite Hnew.
    destruct (Z.leb_spec 1 day_num), (Z.leb_spec day_num (days_in_month year month_num));
      simpl; split; try discriminate; try reflexivity; intros H1; try lia;
      exfalso; apply H1; lia.
  - intros Hnone. now rewrite Hclosed, Hnone.
  - intros d Hd.
    assert (Hrow : forall sd, parse_row U sd row
              = inr match day_schedule with
                    | [] => sd
                    | item :: items =>
                        Dict.set d (DayData day_text (item :: items)) sd
                    end).
    { intros sd2. now rewrite Hclosed, Hd. }
    split; [rewrite Hnew in Hd; destruct (_ && _); congruence|].
    split; [|split].
    + eexists. split; [apply Hrow|]. intros d' ne.
      destruct day_schedule; [reflexivity | now apply get_set_neq].
    + intros Hnil. now rewrite Hrow, Hnil.
    + intros Hne.
      assert (Hset : forall sd, parse_row U sd row
                = inr (Dict.set d (DayData day_text day_schedule) sd)).
      { intros sd2. rewrite Hrow. now destruct day_schedule. }
      split; [apply Hset|]. split; [apply get_set_eq|].
      intros soup table sd0 sd1 Hfind Hin Hparse.
      rewrite (parse_schedule_found U soup table sd0 Hfind) in Hparse.
      apply (parse_rows_stores U _ row sd0 sd1 d) in Hparse; [exact Hparse| |].
      * apply filter_In. split; [exact Hin|].
        exact (data_row_test_passed U row c0 (c1 :: rest) (g1, g2)
                 Hcells Hlen Hmatch).
      * intros sd2. eexists. split; [apply Hset|]. apply keys_set. now left.
Qed.

Lemma month_year_resolution_witness :
  year_of (month_of (lower latin1 (lit "Sep"))) = 2025
  /\ (exists sd',
        parse_row latin1 Dict.empty row_mathe = inr sd'
        /\ forall d', d' <> sep_2 -> Dict.get d' sd' = None)
  /\ parse_row latin1 Dict.empty row_mathe
     = inr [(sep_2, DayData (lit "Di") [(1, lit "Mathe")])]
  /\ In sep_2 (Dict.keys (schedule_data st_mathe)).
Proof.
  destruct (month_year_resolution latin1 Dict.empty row_mathe (td "02. Sep")
              (td "Di")
              (map td ["Mathe" ++ newline; "Frei"; "#NV"; ""; " ";
                       "Betrieb"; "Feiertag"; "Frei"; "Frei"; "Frei"]%string)
              (lit "02") (lit "Sep") eq_refl ltac:(simpl; lia) eq_refl)
    as (_ & _ & _ & H8 & _ & _ & _ & Hsome).
  destruct (Hsome sep_2 eq_refl) as (_ & (sd' & Hrow & Hother) & _ & Hstore).
  destruct (Hstore ltac:(vm_compute; discriminate)) as (Hset & _ & Hdoc).
  split; [apply H8; vm_compute; discriminate|].
  split; [exists sd'; split; [exact Hrow|]; intros d' ne; now rewrite Hother|].
  split; [exact Hset|].
  apply (Hdoc soup_mathe
           (Tag "table" [header_row; row_mathe]) Dict.empty
           (schedule_data st_mathe) eq_refl).
  - right. left. reflexivity.
  - reflexivity.
Defined.

(** C6.  No event carries an ignored label: parsing keeps the invariant
    that every stored day has at least one lesson and every stored subject
    is non-empty and outside the ignored set (the empty table has it); the
    export drops a lesson with an ignored label whatever the table holds;
    and a row none of whose periods survives leaves the table as it is. *)
Theorem ignored_subjects_never_exported :
  schedule_inv Dict.empty
  /\ (forall (U : ucd) (soup : node) (sd sd' : schedule),
        schedule_inv sd -> parse_schedule U soup sd = inr sd' ->
        schedule_inv sd')
  /\ (forall (before_first end_previous : bool) (sd : schedule)
             (selected_weeks : list date) (evs : list event) (ev : event),
        weeks_loop before_first end_previous sd selected_weeks = inr evs ->
        In ev evs ->
        ~ In (summary ev) ignore_subjects
        /\ forall label,
             In label [lit "#NV"; lit "Frei"; lit "Betrieb"; lit "Feiertag";
                       lit ""; lit " "] ->
             summary ev <> label)
  /\ (forall (U : ucd) (sd : schedule) (row : node),
        subject_loop U (find_all cell_names row) (seq 2 10) Dict.empty = inr [] ->
        parse_row U sd row = inr sd).
Proof.
  split; [intros d dd []|]. split; [|split].
  - intros U soup sd sd' Hinv. unfold parse_schedule.
    destruct (find "table" soup) as [table|]; [|discriminate].
    rewrite data_rows_of_filter. simpl. now apply parse_rows_inv.
  - intros bf ep sd weeks evs ev Hloop Hin.
    assert (Hno : ~ In (summary ev) ignore_subjects).
    { destruct (weeks_loop_In _ _ _ _ _ _ Hloop Hin)
        as (m & d & dd & devs & _ & _ & _ & Hday & Hdev).
      destruct (day_events_items bf ep d (subjects dd))
        as (devs' & pl & _ & Hday' & Hitems).
      rewrite Hday in Hday'. injection Hday' as <-.
      apply Hitems in Hdev. destruct Hdev as (p & subj & _ & Hl).
      destruct (lesson_events_cases bf ep d
                  (first_of (sorted (Dict.keys (subjects dd)))) pl p subj)
        as [[H0 _] | (s & e & ts & te & al & Hmem & _ & _ & _ & _ & H1)].
      - rewrite H0 in Hl. discriminate.
      - rewrite H1 in Hl. injection Hl as <-. cbn [summary].
        intros Hign. apply mem_In in Hign. congruence. }
    split; [exact Hno|]. intros label Hlabel E. apply Hno.
    rewrite E. exact Hlabel.
  - intros U sd row Hloop.
    destruct (parse_row_outcome U sd row) as (sd' & Hrow & Hout).
    rewrite Hrow. f_equal.
    destruct Hout as [ | | | | c0 c1 rest g1 g2 d ds Hc Hm Hd Hl Hne Hg];
      try reflexivity.
    rewrite Hloop in Hl. injection Hl as <-. now elim Hne.
Qed.

(** C7.  Every date of the table lies in exactly one bucket of the week
    grouping, the bucket of the Monday [date - weekday], and that Monday is
    at most the date and less than seven days before it; the export's test
    [monday <= date < monday + 7] picks the date for that Monday and for no
    other key of the grouping. *)
Theorem week_partition (sd : schedule) (d : date) :
  In d (Dict.keys sd) ->
  exists weeks,
    group_weeks sd = inr weeks
    /\ (exists bucket, Dict.get (monday_of d) weeks = Some bucket /\ In d bucket)
    /\ (forall m bucket,
          Dict.get m weeks = Some bucket -> In d bucket -> m = monday_of d)
    /\ monday_of d = d - weekday d
    /\ monday_of d <= d < add_days (monday_of d) 7
    /\ (forall m, In m (Dict.keys weeks) ->
          (In d (week_dates_of sd m) <-> m = monday_of d)).
Proof.
  intros Hd. destruct (group_weeks_grouped sd) as (weeks & Hw & Hg).
  exists weeks. split; [exact Hw|]. split; [|split; [|split; [|split]]].
  - apply (grouped_complete _ _ Hg). now apply sorted_In.
  - intros m bucket Hb Hin.
    now destruct (grouped_sound _ _ Hg _ _ _ Hb Hin) as [<- _].
  - reflexivity.
  - apply monday_of_range.
  - intros m Hm. apply (grouped_mondays _ _ Hg) in Hm.
    unfold week_dates_of. rewrite filter_In, andb_true_iff, Z.leb_le, Z.ltb_lt.
    split.
    + intros [_ Hrange]. symmetry. now apply monday_unique.
    + intros ->. split; [exact Hd | apply monday_of_range].
Qed.

Lemma week_partition_witness :
  exists weeks,
    group_weeks (schedule_data st_reloaded) = inr weeks
    /\ (exists bucket, Dict.get (monday_of sep_3) weeks = Some bucket
                       /\ In sep_3 bucket)
    /\ (forall m bucket,
          Dict.get m weeks = Some bucket -> In sep_3 bucket ->
          m = monday_of sep_3)
    /\ monday_of sep_3 = sep_3 - weekday sep_3
    /\ monday_of sep_3 <= sep_3 < add_days (monday_of sep_3) 7
    /\ (forall m, In m (Dict.keys weeks) ->
          (In sep_3 (week_dates_of (schedule_data st_reloaded) m)
           <-> m = monday_of sep_3)).
Proof.
  apply (week_partition (schedule_data st_reloaded) sep_3).
  vm_compute. right. left. reflexivity.
Defined.

(** C8.  Parsing raises "No table found in HTML file" exactly when no table
    tag occurs in the document, and raises nothing else.  When a table is
    found the result is that of the row loop over the rows passing the
    data-row test (at least 12 cells, the first matching the date pattern):
    a row that fails it can be dropped from the table without a change. *)
Theorem no_table_is_the_only_error (U : ucd) (soup : node) (sd : schedule) :
  (parse_schedule U soup sd = inl (Exception "No table found in HTML file")
   <-> ~ exists ch, descendant (Tag "table" ch) soup)
  /\ (forall e, parse_schedule U soup sd = inl e ->
                e = Exception "No table found in HTML file")
  /\ (forall table,
        find "table" soup = Some table ->
        (exists sd', parse_schedule U soup sd = inr sd')
        /\ parse_schedule U soup sd
           = parse_rows U sd (filter (data_row_test U)
                                     (find_all ["tr"%string] table))
        /\ forall rows1 row rows2,
             find_all ["tr"%string] table = rows1 ++ row :: rows2 ->
             data_row_test U row = false ->
             parse_schedule U soup sd
             = parse_rows U sd (filter (data_row_test U) (rows1 ++ rows2))).
Proof.
  assert (Hnone : find "table" soup = None
                  <-> ~ exists ch, descendant (Tag "table" ch) soup).
  { rewrite find_None. split; intros Hn H; apply Hn.
    - destruct H as (ch & Hd). exists (Tag "table" ch). split; [exact Hd|].
      apply named_table. now exists ch.
    - destruct H as (t & Hd & Hname). apply named_table in Hname.
      destruct Hname as (ch & ->). now exists ch. }
  assert (Hfound : forall table, find "table" soup = Some table ->
            exists sd', parse_schedule U soup sd = inr sd').
  { intros table Hf. rewrite (parse_schedule_found U soup table sd Hf).
    apply parse_rows_total. }
  split; [|split].
  - rewrite <- Hnone. clear Hnone. split.
    + intros Herr. destruct (find "table" soup) as [table|]; [|reflexivity].
      destruct (Hfound table eq_refl) as (sd' & Hsd'). congruence.
    + intros Hf. unfold parse_schedule. now rewrite Hf.
  - clear Hnone. intros e He.
    destruct (find "table" soup) as [table|] eqn:Hf.
    + destruct (Hfound table eq_refl) as (sd' & Hsd'). congruence.
    + unfold parse_schedule in He. rewrite Hf in He. now injection He as <-.
  - intros table Hf. split; [exact (Hfound table Hf)|].
    split; [now apply parse_schedule_found|].
    intros rows1 row rows2 Hrows Htest.
    rewrite (parse_schedule_found U soup table sd Hf), Hrows.
    rewrite !filter_app. simpl. now rewrite Htest.
Qed.

(** C9.  Export with no schedule loaded, or with no week ticked, shows the
    matching error and does nothing else: no calendar is built and no file
    is written. *)
Theorem export_needs_schedule_and_weeks (st : state) (file_path : string)
    (written : result unit) :
  schedule_data st = [] \/ (forall m v, In (m, v) (week_vars st) -> v = false) ->
  exists msg,
    generate_ics st file_path written = inr [ShowError msg]
    /\ (schedule_data st = [] -> msg = "No schedule data loaded!"%string)
    /\ (schedule_data st <> [] -> msg = "No weeks selected!"%string)
    /\ forall effects,
         generate_ics st file_path written = inr effects ->
         forall path cal, ~ In (WriteFile path cal) effects.
Proof.
  intros H.
  assert (Hmsg : exists msg,
            generate_ics st file_path written = inr [ShowError msg]
            /\ (schedule_data st = [] -> msg = "No schedule data loaded!"%string)
            /\ (schedule_data st <> [] -> msg = "No weeks selected!"%string)).
  { unfold generate_ics. destruct (schedule_data st) as [|item sd] eqn:Esd.
    - eexists. split; [reflexivity|]. split; [reflexivity | congruence].
    - destruct H as [H|H]; [discriminate|]. rewrite (none_selected _ H).
      eexists. split; [reflexivity|]. split; [discriminate | reflexivity]. }
  destruct Hmsg as (msg & Hgen & H1 & H2). exists msg.
  repeat split; try assumption.
  intros effects He path cal Hin. rewrite Hgen in He. injection He as <-.
  destruct Hin as [E|[]]. discriminate.
Qed.

Lemma export_needs_schedule_and_weeks_witness :
  exists msg,
    generate_ics (deselect_all_weeks st_mathe) "plan.ics" (inr tt)
    = inr [ShowError msg]
    /\ (schedule_data (deselect_all_weeks st_mathe) = [] ->
        msg = "No schedule data loaded!"%string)
    /\ (schedule_data (deselect_all_weeks st_mathe) <> [] ->
        msg = "No weeks selected!"%string)
    /\ forall effects,
         generate_ics (deselect_all_weeks st_mathe) "plan.ics" (inr tt)
         = inr effects ->
         forall path cal, ~ In (WriteFile path cal) effects.
Proof.
  apply (export_needs_schedule_and_weeks (deselect_all_weeks st_mathe)
           "plan.ics" (inr tt)).
  right. intros m v Hin. vm_compute in Hin.
  destruct Hin as [E|[]]. now injection E.
Defined.

(** C10.  The two kinds of alarm exclude each other: the least period of a
    day, the only one that can get the alarm 15 minutes before the first
    lesson, is no key of the map of previous lessons, and so every event of
    the export carries at most one alarm, whatever the two reminder flags. *)
Theorem alarm_kinds_exclusive (st : state) (selected_weeks : list date) :
  (forall d dd, In (d, dd) (schedule_data st) -> Dict.wf (subjects dd)) ->
  (forall d dd p,
     In (d, dd) (schedule_data st) ->
     first_of (sorted (Dict.keys (subjects dd))) = Some p ->
     exists previous_lessons,
       previous_lessons_of (sorted (Dict.keys (subjects dd)))
       = inr previous_lessons
       /\ Dict.contains p previous_lessons = false)
  /\ exists cal,
       build_calendar st selected_weeks = inr cal
       /\ forall ev, In ev (events cal) -> (List.length (alarms ev) <= 1)%nat.
Proof.
  intros Hwf. split.
  - intros d dd p Hin Hfirst.
    destruct (previous_lessons_sorted _ (Hwf d dd Hin)) as (pl & Hpl & Hf & _).
    exists pl. split; [exact Hpl | now apply Hf].
  - unfold build_calendar.
    destruct (weeks_loop_total (reminder_before_first st)
                (reminder_end_previous st) (schedule_data st) selected_weeks)
      as (evs & Hevs).
    rewrite Hevs. simpl. eexists. split; [reflexivity|]. simpl.
    intros ev Hin.
    destruct (weeks_loop_In _ _ _ _ _ _ Hevs Hin)
      as (m & d & dd & devs & _ & _ & Hget & Hday & Hdev).
    apply get_Some_In in Hget.
    exact (day_events_one_alarm _ _ _ _ _ (Hwf d dd Hget) Hday ev Hdev).
Qed.

Lemma alarm_kinds_exclusive_witness :
  exists cal,
    build_calendar st_reloaded (selected_weeks_of (week_vars st_reloaded))
    = inr cal
    /\ forall ev, In ev (events cal) -> (List.length (alarms ev) <= 1)%nat.
Proof.
  apply (alarm_kinds_exclusive st_reloaded
           (selected_weeks_of (week_vars st_reloaded))).
  intros d dd Hin. vm_compute in Hin.
  destruct Hin as [E|[E|[]]]; injection E as <- <-;
    (constructor; [intros [] | constructor]).
Defined.

(* ================================================================== *)
(** * Further properties *)

(** ** The time tables, once more *)

(** Every slot ends after it begins, and a slot of a later period begins no
    earlier than a slot of an earlier period ends. *)
Lemma slot_positive (date_obj : date) (p : Z) (s e : string) (ts te : time) :
  Dict.get p (time_schedule_of date_obj) = Some (s, e) ->
  strptime_HM s = inr ts -> strptime_HM e = inr te ->
  minute_of_day ts < minute_of_day te /\ 480 <= minute_of_day ts.
Proof.
  intros Hg. apply get_Some_In in Hg. revert Hg.
  unfold time_schedule_of, weekday_times, friday_times.
  destruct (weekday date_obj =? 4); simpl; intros Hin;
    repeat (destruct Hin as [E|Hin];
            [injection E as <- <- <-; intros [= <-] [= <-]; vm_compute; intuition discriminate|]);
    destruct Hin.
Qed.

Lemma slot_order (date_obj : date) (q p : Z) (sq eq sp ep : string)
    (tq tp : time) :
  q < p ->
  Dict.get q (time_schedule_of date_obj) = Some (sq, eq) ->
  Dict.get p (time_schedule_of date_obj) = Some (sp, ep) ->
  strptime_HM eq = inr tq -> strptime_HM sp = inr tp ->
  minute_of_day tq <= minute_of_day tp.
Proof.
  intros Hlt Hq Hp. apply get_Some_In in Hq, Hp. revert Hq Hp.
  unfold time_schedule_of, weekday_times, friday_times.
  destruct (weekday date_obj =? 4); simpl; intros Hq Hp;
    repeat (destruct Hq as [E|Hq]; [injection E as <- <- <-|]);
    try (destruct Hq);
    repeat (destruct Hp as [E|Hp]; [injection E as <- <- <-|]);
    try (destruct Hp); try lia;
    intros [= <-] [= <-]; vm_compute; discriminate.
Qed.

(** ** The map of previous lessons, once more *)

Lemma set_pairs_get_In (pairs : list (Z * Z)) (d : Dict.t Z Z) (k v : Z) :
  Dict.get k (set_pairs pairs d) = Some v ->
  In (k, v) pairs \/ Dict.get k d = Some v.
Proof.
  revert d. induction pairs as [|[p q] pairs IH]; intros d; simpl.
  - now right.
  - unfold set_pairs; simpl. fold (set_pairs pairs (Dict.set p q d)).
    intros Hg. destruct (IH _ Hg) as [Hin|Hd]; [left; now right|].
    destruct (Z.eq_dec k p) as [->|ne].
    + rewrite get_set_eq in Hd. injection Hd as ->. left. now left.
    + rewrite get_set_neq in Hd by assumption. now right.
Qed.

Lemma pairs_from_lt (a : Z) (l : list Z) (p q : Z) :
  StronglySorted Z.lt (a :: l) -> In (p, q) (pairs_from a l) ->
  q < p /\ In q (a :: l) /\ In p l.
Proof.
  revert a. induction l as [|b l IH]; intros a Hs; simpl; [intros []|].
  inversion Hs as [|? ? Hs' Ha]; subst. rewrite Forall_forall in Ha.
  intros [E|Hin].
  - injection E as <- <-. split; [apply Ha; now left|]. split; now left.
  - destruct (IH b Hs' Hin) as (Hlt & Hq & Hp).
    split; [exact Hlt|]. split; right; assumption.
Qed.

(** The previous lesson of a period is an earlier period of the same day. *)
Lemma previous_lessons_earlier (keys : list Z) (pl : Dict.t Z Z) (p q : Z) :
  NoDup keys ->
  previous_lessons_of (sorted keys) = inr pl ->
  Dict.get p pl = Some q ->
  q < p /\ In q keys /\ In p keys.
Proof.
  intros Hn Hpl Hg. rewrite previous_lessons_of_spec in Hpl.
  pose proof (sorted_lt keys Hn) as Hs.
  assert (Hin : forall x, In x (sorted keys) <-> In x keys) by apply sorted_In.
  destruct (sorted keys) as [|a l]; injection Hpl as <-; [discriminate|].
  apply set_pairs_get_In in Hg. destruct Hg as [Hg|Hg]; [|discriminate].
  destruct (pairs_from_lt a l p q Hs Hg) as (Hlt & Hq & Hp).
  split; [exact Hlt|]. split; apply Hin; [exact Hq | now right].
Qed.

(** ** Events, lesson by lesson *)

Lemma Forall2_In_left {A B : Type} (R : A -> B -> Prop) (l1 : list A)
    (l2 : list B) (a : A) :
  Forall2 R l1 l2 -> In a l1 -> exists b, In b l2 /\ R a b.
Proof.
  induction 1 as [|x y l1 l2 Hxy _ IH]; [intros []|].
  intros [<-|Hin].
  - exists y. split; [now left | exact Hxy].
  - destruct (IH Hin) as (b & Hb & Hab). exists b. split; [now right | exact Hab].
Qed.

Lemma lessons_loop_exported (before_first end_previous : bool)
    (date_obj : date) (first_period : option Z) (pl : Dict.t Z Z)
    (items : list (Z * pystr)) :
  exists evs,
    lessons_loop before_first end_previous (time_schedule_of date_obj)
                 first_period pl date_obj items = inr evs
    /\ Forall2 (fun ev item =>
                  event_of_lesson date_obj ev item
                  /\ exists al,
                       previous_alarm end_previous (time_schedule_of date_obj)
                                      pl date_obj (dtstart ev) (fst item)
                                      (snd item) = inr al
                       /\ alarms ev
                          = first_alarm before_first first_period (fst item)
                                        (snd item) ++ al)
               evs (filter (exported (time_schedule_of date_obj)) items).
Proof.
  induction items as [|[p subj] items (evs & Hevs & IH)].
  - exists []. split; [reflexivity | constructor].
  - cbn [lessons_loop filter]. rewrite Hevs.
    unfold exported at 1, Dict.contains. cbn [fst snd].
    destruct (lesson_events_cases before_first end_previous date_obj
                first_period pl p subj)
      as [[H0 Hwhy] | (s & e & ts & te & al & Hm & Hs & Hts & Hte & Hal & H1)].
    + rewrite H0. cbn [bind ret app]. exists evs. split; [reflexivity|].
      destruct Hwhy as [Hm|Hn].
      * rewrite Hm. exact IH.
      * rewrite Hn, andb_false_r. exact IH.
    + rewrite H1. cbn [bind ret app]. eexists. split; [reflexivity|].
      rewrite Hm, Hs. cbn [negb andb].
      constructor; [|exact IH]. split.
      * split; [reflexivity|]. split; [reflexivity|].
        exists s, e, ts, te. auto.
      * exists al. split; [exact Hal | reflexivity].
Qed.

(** The events of a day against its exported lessons, with the map of
    previous lessons the builder used. *)
Lemma day_events_exported (before_first end_previous : bool)
    (date_obj : date) (subjects : Dict.t Z pystr) :
  exists evs pl,
    previous_lessons_of (sorted (Dict.keys subjects)) = inr pl
    /\ day_events before_first end_previous date_obj subjects = inr evs
    /\ Forall2 (fun ev item =>
                  event_of_lesson date_obj ev item
                  /\ exists al,
                       previous_alarm end_previous (time_schedule_of date_obj)
                                      pl date_obj (dtstart ev) (fst item)
                                      (snd item) = inr al
                       /\ alarms ev
                          = first_alarm before_first
                              (first_of (sorted (Dict.keys subjects)))
                              (fst item) (snd item) ++ al)
               evs (filter (exported (time_schedule_of date_obj)) subjects).
Proof.
  pose proof (previous_lessons_of_spec (sorted (Dict.keys subjects))) as Hpl.
  destruct (lessons_loop_exported before_first end_previous date_obj
              (first_of (sorted (Dict.keys subjects)))
              match sorted (Dict.keys subjects) with
              | [] => Dict.empty
              | p :: rest => set_pairs (pairs_from p rest) Dict.empty
              end subjects) as (evs & Hevs & Hall).
  eexists evs, _. split; [exact Hpl|]. split; [|exact Hall].
  unfold day_events. rewrite Hpl. exact Hevs.
Qed.

(** X1.  The event builder never raises, and the events of a day are, in the
    order of the day's lessons, one event for each lesson whose subject is
    not an ignored label and whose period has a slot in the day's table:
    the event has the lesson's subject, names the period, and starts and
    ends on that date at the slot's times, the start before the end.  A
    lesson in a period without a slot gives no event. *)
Theorem day_events_are_the_slotted_lessons (before_first end_previous : bool)
    (date_obj : date) (subjects : Dict.t Z pystr) :
  exists evs,
    day_events before_first end_previous date_obj subjects = inr evs
    /\ Forall2 (event_of_lesson date_obj) evs
               (filter (exported (time_schedule_of date_obj)) subjects)
    /\ List.length evs
       = List.length (filter (exported (time_schedule_of date_obj)) subjects)
    /\ (forall ev, In ev evs ->
          dt_date (dtstart ev) = date_obj /\ dt_date (dtend ev) = date_obj
          /\ minute_of_day (dt_time (dtstart ev))
             < minute_of_day (dt_time (dtend ev)))
    /\ ((forall p subj, In (p, subj) subjects ->
           Dict.get p (time_schedule_of date_obj) = None) ->
        evs = []).
Proof.
  destruct (day_events_exported before_first end_previous date_obj subjects)
    as (evs & pl & _ & Hevs & Hrich).
  assert (Hall : Forall2 (event_of_lesson date_obj) evs
                   (filter (exported (time_schedule_of date_obj)) subjects)).
  { eapply Forall2_impl; [|exact Hrich]. now intros ev item [H _]. }
  exists evs. split; [exact Hevs|]. split; [exact Hall|].
  split; [now apply Forall2_length in Hall|]. split.
  - intros ev Hin.
    destruct (Forall2_In_left _ _ _ _ Hall Hin)
      as (item & _ & _ & _ & s & e & ts & te & Hg & Hts & Hte & Hst & Hen).
    rewrite Hst, Hen. simpl. repeat split.
    now destruct (slot_positive date_obj (fst item) s e ts te Hg Hts Hte).
  - intros Hnone.
    assert (Hf : filter (exported (time_schedule_of date_obj)) subjects = []).
    { clear Hevs Hall Hrich. induction subjects as [|[p subj] items IH];
        [reflexivity|]. simpl. unfold exported at 1, Dict.contains.
      cbn [fst snd]. rewrite (Hnone p subj (or_introl eq_refl)).
      rewrite andb_false_r. apply IH. intros; eapply Hnone; right; eauto. }
    rewrite Hf in Hall. now inversion Hall.
Qed.

(** X2.  No reminder fires after its lesson has begun or before the school
    day: for a day with distinct periods, every alarm of every event has a
    trigger that is zero or negative, and the instant it names lies at or
    after 07:45 of the lesson's day. *)
Theorem alarms_fire_before_the_lesson (before_first end_previous : bool)
    (date_obj : date) (subjects : Dict.t Z pystr) (evs : list event) :
  Dict.wf subjects ->
  day_events before_first end_previous date_obj subjects = inr evs ->
  forall ev a, In ev evs -> In a (alarms ev) ->
    trigger a <= 0
    /\ 465 <= minute_of_day (dt_time (dtstart ev)) + trigger a.
Proof.
  intros Hwf Hday ev a Hev Ha.
  destruct (day_events_exported before_first end_previous date_obj subjects)
    as (evs' & pl & Hpl & Hday' & Hall).
  rewrite Hday in Hday'. injection Hday' as <-.
  destruct (Forall2_In_left _ _ _ _ Hall Hev)
    as ([p subj] & _ & (_ & _ & s & e & ts & te & Hg & Hts & Hte & Hst & _)
        & al & Hal & Halarms).
  cbn [fst snd] in *. rewrite Hst in *. cbn [dt_time].
  destruct (slot_positive date_obj p s e ts te Hg Hts Hte) as [_ Hstart].
  rewrite Halarms in Ha. apply in_app_or in Ha. destruct Ha as [Ha|Ha].
  - unfold first_alarm in Ha.
    destruct (before_first && is_first p _); [|destruct Ha].
    destruct Ha as [<-|[]]. simpl. lia.
  - destruct (previous_alarm_cases end_previous date_obj pl
                (DateTime date_obj ts) p subj)
      as [[Hnil _] | (q & s' & e' & tq & _ & Hq & Hs' & Htq & Hone)].
    + rewrite Hnil in Hal. injection Hal as <-. destruct Ha.
    + rewrite Hone in Hal. injection Hal as <-. destruct Ha as [<-|[]].
      cbn [trigger]. rewrite minutes_diff_same_day.
      destruct (previous_lessons_earlier _ _ _ _ Hwf Hpl Hq) as (Hlt & _ & _).
      pose proof (slot_order date_obj q p s' e' s e tq ts Hlt Hs' Hg Htq Hts).
      destruct (time_schedule_parses date_obj q s' e' Hs')
        as (tsq & teq & Htsq & Hteq).
      rewrite Htq in Hteq. injection Hteq as <-.
      destruct (slot_positive date_obj q s' e' tsq tq Hs' Htsq Htq). lia.
Qed.

Lemma alarms_fire_before_the_lesson_witness :
  Dict.wf friday_ilias
  /\ -15 <= 0
  /\ 465 <= minute_of_day (Time 13 0) + -15.
Proof.
  assert (Hwf : Dict.wf friday_ilias)
    by (constructor; [intros [] | constructor]).
  split; [exact Hwf|].
  exact (alarms_fire_before_the_lesson true true sep_5 friday_ilias _ Hwf
           eq_refl
           (Event (lit "ILIAS")
                  (DateTime sep_5 (Time 13 0)) (DateTime sep_5 (Time 14 30))
                  (lit "Berufsschule - Period 7")
                  [Alarm "DISPLAY" (lit "First lesson starting soon: ILIAS")
                         (-15)])
           (Alarm "DISPLAY" (lit "First lesson starting soon: ILIAS") (-15))
           (or_introl eq_refl) (or_introl eq_refl)).
Defined.

Lemma is_first_least (keys : list Z) (p q : Z) :
  is_first p (first_of (sorted keys)) = true -> In q keys -> q < p -> False.
Proof.
  intros Hf Hq Hlt. apply is_first_eq in Hf.
  destruct (first_of_sorted_least keys p Hf) as [_ Hle].
  specialize (Hle q Hq). lia.
Qed.

(** X3.  When an event carries no alarm.  For a day with distinct periods
    and each of its exported lessons: with both reminders off the event has
    no alarm; with the first-lesson reminder off, the event of the least
    period has none; with the previous-lesson reminder off, an event of a
    later period has none; and whatever the flags, the event of a lesson
    whose preceding period of the day has no time slot has none, even when
    an earlier period has one. *)
Theorem alarm_absent_cases (before_first end_previous : bool)
    (date_obj : date) (subjects : Dict.t Z pystr) :
  Dict.wf subjects ->
  exists evs,
    day_events before_first end_previous date_obj subjects = inr evs
    /\ Forall2
         (fun ev item =>
            (before_first = false -> end_previous = false -> alarms ev = [])
            /\ (before_first = false ->
                (forall k, In k (Dict.keys subjects) -> fst item <= k) ->
                alarms ev = [])
            /\ (end_previous = false ->
                (exists k, In k (Dict.keys subjects) /\ k < fst item) ->
                alarms ev = [])
            /\ (forall q, precedes (Dict.keys subjects) q (fst item) ->
                  Dict.get q (time_schedule_of date_obj) = None ->
                  alarms ev = []))
         evs (filter (exported (time_schedule_of date_obj)) subjects).
Proof.
  intros Hwf.
  destruct (day_events_exported before_first end_previous date_obj subjects)
    as (evs & pl & Hpl & Hday & Hall).
  destruct (previous_lessons_sorted (Dict.keys subjects) Hwf)
    as (pl' & Hpl' & Hfirst & Hprev).
  rewrite Hpl in Hpl'. injection Hpl' as <-.
  exists evs. split; [exact Hday|].
  eapply Forall2_impl; [|exact Hall].
  intros ev [p subj] (_ & al & Hal & Halarms). cbn [fst snd] in *.
  assert (Hnoprev : end_previous = false -> al = []).
  { intros ->. unfold previous_alarm in Hal. simpl in Hal.
    now injection Hal as <-. }
  assert (Hnofirst : before_first = false ->
                     first_alarm before_first
                       (first_of (sorted (Dict.keys subjects))) p subj = []).
  { intros ->. reflexivity. }
  split; [|split; [|split]].
  - intros Hb He. now rewrite Halarms, (Hnofirst Hb), (Hnoprev He).
  - intros Hb Hleast. rewrite Halarms, (Hnofirst Hb). simpl.
    destruct (previous_alarm_cases end_previous date_obj pl (dtstart ev) p subj)
      as [[Hnil _] | (q & s' & e' & tq & _ & Hq & _ & _ & _)].
    + rewrite Hnil in Hal. now injection Hal as <-.
    + destruct (previous_lessons_earlier _ _ _ _ Hwf Hpl Hq) as (Hlt & Hin & _).
      specialize (Hleast q Hin). lia.
  - intros He (k & Hk & Hlt). rewrite Halarms, (Hnoprev He), app_nil_r.
    unfold first_alarm.
    destruct (is_first p (first_of (sorted (Dict.keys subjects)))) eqn:Ef;
      [|now rewrite andb_false_r].
    destruct (is_first_least _ _ _ Ef Hk Hlt).
  - intros q Hq Hnone.
    assert (Hal0 : al = []).
    { apply Hprev in Hq.
      destruct (previous_alarm_cases end_previous date_obj pl (dtstart ev)
                  p subj)
        as [[Hnil _] | (q' & s' & e' & tq & _ & Hq' & Hs' & _ & _)].
      - rewrite Hnil in Hal. now injection Hal as <-.
      - congruence. }
    rewrite Halarms, Hal0, app_nil_r. unfold first_alarm.
    destruct (is_first p (first_of (sorted (Dict.keys subjects)))) eqn:Ef;
      [|now rewrite andb_false_r].
    destruct Hq as (Hin & _ & Hlt & _).
    destruct (is_first_least _ _ _ Ef Hin Hlt).
Qed.

(** A Tuesday with lessons in the periods 1, 2 and 3: period 2 has no slot. *)
Lemma alarm_absent_cases_witness :
  exists evs,
    day_events true true sep_2
               [(1, lit "Mathe"); (2, lit "Deutsch"); (3, lit "Sport")]
    = inr evs
    /\ map (fun ev => List.length (alarms ev)) evs = [1%nat; 0%nat].
Proof.
  destruct (alarm_absent_cases true true sep_2
              [(1, lit "Mathe"); (2, lit "Deutsch"); (3, lit "Sport")])
    as (evs & Hday & _).
  - repeat constructor; simpl; intuition discriminate.
  - exists evs. split; [exact Hday|].
    vm_compute in Hday. injection Hday as <-. reflexivity.
Defined.

(** ** The export as a whole *)

Lemma Forall2_In_right {A B : Type} (R : A -> B -> Prop) (l1 : list A)
    (l2 : list B) (b : B) :
  Forall2 R l1 l2 -> In b l2 -> exists a, In a l1 /\ R a b.
Proof.
  induction 1 as [|x y l1 l2 Hxy _ IH]; [intros []|].
  intros [<-|Hin].
  - exists x. split; [now left | exact Hxy].
  - destruct (IH Hin) as (a & Ha & Hab). exists a. split; [now right | exact Hab].
Qed.

Lemma dates_loop_covers (before_first end_previous : bool) (sd : schedule)
    (dates : list date) (evs devs : list event) (d : date) (dd : day_data)
    (ev : event) :
  dates_loop before_first end_previous sd dates = inr evs ->
  In d dates -> Dict.get d sd = Some dd ->
  day_events before_first end_previous d (subjects dd) = inr devs ->
  In ev devs -> In ev evs.
Proof.
  revert evs. induction dates as [|d0 dates IH]; simpl; intros evs Hl Hd Hg Hday Hev.
  - destruct Hd.
  - destruct (Dict.get d0 sd) as [dd0|] eqn:E0; [|discriminate].
    destruct (day_events before_first end_previous d0 (subjects dd0))
      as [e|devs0] eqn:Eday; [discriminate|]. simpl in Hl.
    destruct (dates_loop before_first end_previous sd dates)
      as [e|more] eqn:Emore; [discriminate|]. simpl in Hl.
    injection Hl as <-. apply in_or_app. destruct Hd as [->|Hd].
    + left. rewrite Hg in E0. injection E0 as <-.
      rewrite Hday in Eday. now injection Eday as <-.
    + right. now apply IH.
Qed.

Lemma weeks_loop_covers (before_first end_previous : bool) (sd : schedule)
    (weeks : list date) (evs devs : list event) (m d : date) (dd : day_data)
    (ev : event) :
  weeks_loop before_first end_previous sd weeks = inr evs ->
  In m weeks -> In d (week_dates_of sd m) -> Dict.get d sd = Some dd ->
  day_events before_first end_previous d (subjects dd) = inr devs ->
  In ev devs -> In ev evs.
Proof.
  revert evs. induction weeks as [|m0 weeks IH]; simpl;
    intros evs Hl Hm Hd Hg Hday Hev.
  - destruct Hm.
  - destruct (dates_loop before_first end_previous sd (week_dates_of sd m0))
      as [e|wevs] eqn:Ew; [discriminate|]. simpl in Hl.
    destruct (weeks_loop before_first end_previous sd weeks)
      as [e|more] eqn:Emore; [discriminate|]. simpl in Hl.
    injection Hl as <-. apply in_or_app. destruct Hm as [->|Hm].
    + left. eapply dates_loop_covers; eauto.
    + right. now apply IH.
Qed.

Lemma selected_weeks_In (week_vars : Dict.t date bool) (m : date) :
  In m (selected_weeks_of week_vars) <-> In (m, true) week_vars.
Proof.
  unfold selected_weeks_of. rewrite in_map_iff. split.
  - intros ([m' v] & E & Hin). apply filter_In in Hin.
    simpl in *. destruct Hin as [Hin ->]. now subst.
  - intros Hin. exists (m, true). split; [reflexivity|].
    apply filter_In. now split.
Qed.

(** X4.  The export never raises, and every event of the calendar comes
    from the table: it is the event of a lesson stored for a date that lies
    in the seven days from a selected Monday, the lesson's subject is not an
    ignored label and its period has a slot; the event begins and ends on
    that date, the beginning before the end. *)
Theorem exported_events_come_from_the_table (st : state)
    (selected_weeks : list date) :
  exists cal,
    build_calendar st selected_weeks = inr cal
    /\ forall ev, In ev (events cal) ->
         exists monday d dd item,
           In monday selected_weeks
           /\ monday <= d < add_days monday 7
           /\ Dict.get d (schedule_data st) = Some dd
           /\ In item (subjects dd)
           /\ exported (time_schedule_of d) item = true
           /\ event_of_lesson d ev item
           /\ dt_date (dtstart ev) = d /\ dt_date (dtend ev) = d
           /\ minute_of_day (dt_time (dtstart ev))
              < minute_of_day (dt_time (dtend ev)).
Proof.
  unfold build_calendar.
  destruct (weeks_loop_total (reminder_before_first st)
              (reminder_end_previous st) (schedule_data st) selected_weeks)
    as (evs & Hevs).
  rewrite Hevs. simpl. eexists. split; [reflexivity|]. simpl.
  intros ev Hin.
  destruct (weeks_loop_In _ _ _ _ _ _ Hevs Hin)
    as (m & d & dd & devs & Hm & Hd & Hget & Hday & Hdev).
  destruct (day_events_exported (reminder_before_first st)
              (reminder_end_previous st) d (subjects dd))
    as (devs' & pl & _ & Hday' & Hall).
  rewrite Hday in Hday'. injection Hday' as <-.
  destruct (Forall2_In_left _ _ _ _ Hall Hdev) as (item & Hitem & Hev & _).
  apply filter_In in Hitem. destruct Hitem as [Hitem Hexp].
  unfold week_dates_of in Hd. apply filter_In in Hd.
  destruct Hd as [_ Hrange].
  apply andb_true_iff in Hrange. rewrite Z.leb_le, Z.ltb_lt in Hrange.
  exists m, d, dd, item. repeat (split; [assumption || lia|]).
  destruct Hev as (_ & _ & s & e & ts & te & Hg & Hts & Hte & Hst & Hen).
  rewrite Hst, Hen. simpl. repeat split.
  now destruct (slot_positive d (fst item) s e ts te Hg Hts Hte).
Qed.

(** X5.  The export leaves out no lesson of a ticked week: when the box of
    a date's Monday is ticked, every lesson stored for the date whose
    subject is not an ignored label and whose period has a slot has its
    event in the calendar. *)
Theorem ticked_weeks_are_exported_in_full (st : state) (d : date)
    (dd : day_data) (item : Z * pystr) :
  In (monday_of d, true) (week_vars st) ->
  Dict.get d (schedule_data st) = Some dd ->
  In item (subjects dd) ->
  exported (time_schedule_of d) item = true ->
  exists cal ev,
    build_calendar st (selected_weeks_of (week_vars st)) = inr cal
    /\ In ev (events cal)
    /\ event_of_lesson d ev item.
Proof.
  intros Htick Hget Hitem Hexp. unfold build_calendar.
  destruct (weeks_loop_total (reminder_before_first st)
              (reminder_end_previous st) (schedule_data st)
              (selected_weeks_of (week_vars st))) as (evs & Hevs).
  rewrite Hevs. simpl.
  destruct (day_events_exported (reminder_before_first st)
              (reminder_end_previous st) d (subjects dd))
    as (devs & pl & _ & Hday & Hall).
  destruct (Forall2_In_right _ _ _ item Hall) as (ev & Hev & Hrel & _).
  { apply filter_In. now split. }
  eexists. exists ev. split; [reflexivity|]. split; [|exact Hrel]. simpl.
  apply (weeks_loop_covers _ _ _ _ _ devs (monday_of d) d dd ev Hevs);
    try assumption.
  - now apply selected_weeks_In.
  - unfold week_dates_of. apply filter_In. split.
    + apply contains_keys, contains_get. now exists dd.
    + pose proof (monday_of_range d).
      apply andb_true_iff. rewrite Z.leb_le, Z.ltb_lt. lia.
Qed.

Lemma ticked_weeks_are_exported_in_full_witness :
  exists cal ev,
    build_calendar st_mathe (selected_weeks_of (week_vars st_mathe)) = inr cal
    /\ In ev (events cal)
    /\ event_of_lesson sep_2 ev (1, lit "Mathe").
Proof.
  apply (ticked_weeks_are_exported_in_full st_mathe sep_2
           (DayData (lit "Di") [(1, lit "Mathe")]) (1, lit "Mathe")).
  - left. reflexivity.
  - reflexivity.
  - left. reflexivity.
  - reflexivity.
Defined.


(** ** Loading and the week boxes *)

Lemma keys_set_new {K V : Type} `{EqKey K} (k : K) (v : V) (d : Dict.t K V) :
  ~ In k (Dict.keys d) -> Dict.keys (Dict.set k v d) = Dict.keys d ++ [k].
Proof.
  induction d as [|[k' v'] d IH]; simpl; intros Hn; [reflexivity|].
  destruct (keqb_spec k k') as [->|ne]; [exfalso; apply Hn; now left|].
  simpl. f_equal. apply IH. intros Hin. apply Hn. now right.
Qed.

Lemma week_var_loop_keys (sd : schedule) (weeks : Dict.t date (list date))
    (wv wv' : Dict.t date bool) (mondays : list date) :
  NoDup (Dict.keys wv ++ mondays) ->
  week_var_loop sd weeks wv mondays = inr wv' ->
  Dict.keys wv' = Dict.keys wv ++ mondays.
Proof.
  revert wv. induction mondays as [|m mondays IH]; intros wv Hn; simpl.
  - intros [= <-]. now rewrite app_nil_r.
  - destruct (week_var_step sd weeks wv m) as [e|wv1] eqn:E1; [discriminate|].
    simpl. intros Hrest.
    assert (Hwv1 : wv1 = Dict.set m true wv).
    { revert E1. unfold week_var_step.
      destruct (Dict.get m weeks); [|discriminate].
      destruct (getitem _ 0); [discriminate|]. simpl.
      destruct (week_lookup _ _); [discriminate|]. simpl. now intros [= <-]. }
    subst wv1.
    assert (Hk : Dict.keys (Dict.set m true wv) = Dict.keys wv ++ [m]).
    { apply keys_set_new. apply NoDup_remove_2 in Hn.
      intros Hin. apply Hn. apply in_or_app. now left. }
    rewrite (IH _ ltac:(rewrite Hk, <- app_assoc; exact Hn) Hrest), Hk.
    now rewrite <- app_assoc.
Qed.

Lemma group_loop_wf (weeks weeks' : Dict.t date (list date))
    (dates : list date) :
  Dict.wf weeks -> group_loop weeks dates = inr weeks' -> Dict.wf weeks'.
Proof.
  revert weeks. induction dates as [|d dates IH]; intros weeks Hwf; simpl.
  - now intros [= <-].
  - destruct (group_step weeks d) as [e|w1] eqn:E1; [discriminate|].
    simpl. apply IH. revert E1. unfold group_step.
    destruct (negb (Dict.contains (monday_of d) weeks));
      (destruct (Dict.get (monday_of d) _); [|discriminate]);
      intros [= <-]; repeat apply wf_set; assumption.
Qed.

(** X7.  [display_weeks] never raises and makes one check box for each
    week that holds a date of the table: the keys of the new [week_vars]
    are exactly the Mondays of the stored dates, in ascending order and
    each once, and every box starts ticked. *)
Theorem display_weeks_boxes (sd : schedule) :
  exists week_vars,
    display_weeks sd = inr week_vars
    /\ (forall m, In m (Dict.keys week_vars) <->
                  exists d, In d (Dict.keys sd) /\ m = monday_of d)
    /\ StronglySorted Z.lt (Dict.keys week_vars)
    /\ (forall m, In m (Dict.keys week_vars) -> weekday m = 0)
    /\ (forall m v, In (m, v) week_vars -> v = true).
Proof.
  destruct (display_weeks_spec sd) as (weeks & wv & Hw & Hg & Hd & Hkeys & Hvals).
  exists wv. split; [exact Hd|].
  assert (Hwf : Dict.wf weeks).
  { unfold group_weeks in Hw. eapply group_loop_wf; [apply wf_empty | exact Hw]. }
  assert (Hk : Dict.keys wv = sorted (Dict.keys weeks)).
  { unfold display_weeks in Hd. rewrite Hw in Hd. simpl in Hd.
    apply (week_var_loop_keys sd weeks Dict.empty wv _
             (sorted_NoDup _ Hwf) Hd). }
  split; [|split; [|split]].
  - intros m. rewrite Hkeys. split.
    + intros Hm. apply contains_keys, contains_get in Hm.
      destruct Hm as (b & Hb). destruct b as [|d b].
      * now apply (grouped_nonempty _ _ Hg) in Hb.
      * destruct (grouped_sound _ _ Hg m (d :: b) d Hb (or_introl eq_refl))
          as [Hmon Hseen].
        exists d. split; [now apply sorted_In | now symmetry].
    + intros (d & Hin & ->).
      destruct (grouped_complete _ _ Hg d) as (b & Hb & _);
        [now apply sorted_In|].
      apply contains_keys, contains_get. now exists b.
  - rewrite Hk. now apply sorted_lt.
  - intros m Hm. apply Hkeys in Hm. now apply (grouped_mondays _ _ Hg).
  - exact Hvals.
Qed.

(** X8.  A load either fails, with one error box and the converter left as
    it was (no file chosen, the file could not be read, or the document has
    no table), or succeeds: then the table is what [parse_schedule] made of
    the old one, the boxes are those of [display_weeks], the file and the
    reminder flags are untouched, and the week of every stored date is
    ticked. *)
Theorem load_schedule_outcomes (U : ucd) (st : state) (opened : result node) :
  (exists msg,
     load_schedule U st opened = (st, [ShowError msg])
     /\ (html_file st = None
         \/ (exists e, opened = inl e)
         \/ (exists soup, opened = inr soup /\ find "table" soup = None)))
  \/ (exists path soup table st',
        html_file st = Some path
        /\ opened = inr soup
        /\ find "table" soup = Some table
        /\ load_schedule U st opened
           = (st', [ShowInfo "Schedule loaded successfully!"])
        /\ parse_schedule U soup (schedule_data st) = inr (schedule_data st')
        /\ display_weeks (schedule_data st') = inr (week_vars st')
        /\ html_file st' = html_file st
        /\ reminder_before_first st' = reminder_before_first st
        /\ reminder_end_previous st' = reminder_end_previous st
        /\ forall d, In d (Dict.keys (schedule_data st')) ->
                     In (monday_of d, true) (week_vars st')).
Proof.
  unfold load_schedule.
  destruct (html_file st) as [path|] eqn:Hfile;
    [|left; eexists; split; [reflexivity | now left]].
  destruct opened as [e|soup];
    [left; eexists; split; [reflexivity | right; left; now exists e]|].
  destruct (find "table" soup) as [table|] eqn:Hfind.
  - right.
    destruct (parse_rows_total U (schedule_data st)
                (filter (data_row_test U) (find_all ["tr"%string] table)))
      as (sd' & Hsd').
    rewrite <- (parse_schedule_found U soup table _ Hfind) in Hsd'.
    rewrite Hsd'.
    destruct (display_weeks_spec sd') as (weeks & wv & _ & Hg & Hwv & Hkeys & Hvals).
    rewrite Hwv. exists path, soup, table. eexists.
    repeat (split; [reflexivity || assumption|]). simpl.
    intros d Hd.
    destruct (grouped_complete _ _ Hg d) as (b & Hb & _); [now apply sorted_In|].
    assert (Hm : In (monday_of d) (Dict.keys wv)).
    { apply Hkeys. apply contains_keys, contains_get. now exists b. }
    apply contains_keys, contains_get in Hm. destruct Hm as (v & Hv).
    apply get_Some_In in Hv. now rewrite (Hvals _ _ Hv) in Hv.
  - left. unfold parse_schedule. rewrite Hfind. simpl.
    eexists. split; [reflexivity|]. right; right. now exists soup.
Qed.

(** ** Parsing, once more *)

Lemma parse_schedule_updates_any (U : ucd) (soup : node) (sd0 sd1 : schedule) :
  parse_schedule U soup sd0 = inr sd1 ->
  exists upds, forall sd, parse_schedule U soup sd = inr (store_all upds sd).
Proof.
  unfold parse_schedule.
  destruct (find "table" soup) as [table|]; [|discriminate]. intros _.
  rewrite data_rows_of_filter. simpl. apply parse_rows_updates.
Qed.

Lemma keys_set_old {K V : Type} `{EqKey K} (k : K) (v : V) (d : Dict.t K V) :
  In k (Dict.keys d) -> Dict.keys (Dict.set k v d) = Dict.keys d.
Proof.
  induction d as [|[k' v'] d IH]; simpl; [intros []|].
  destruct (keqb_spec k k') as [->|ne]; [reflexivity|].
  intros [E|Hin]; [congruence|]. simpl. f_equal. now apply IH.
Qed.

Lemma store_keys (upd : option (date * day_data)) (sd : schedule) (d : date) :
  In d (Dict.keys sd) -> In d (Dict.keys (store upd sd)).
Proof.
  destruct upd as [[d0 dd0]|]; simpl; [|auto].
  intros Hin. apply keys_set. now right.
Qed.

Lemma store_all_keys (upds : list (option (date * day_data))) (sd : schedule)
    (d : date) :
  In d (Dict.keys sd) -> In d (Dict.keys (store_all upds sd)).
Proof.
  revert sd. induction upds as [|upd upds IH]; intros sd Hin; [exact Hin|].
  apply (IH (store upd sd)). now apply store_keys.
Qed.

Lemma store_all_written (upds : list (option (date * day_data)))
    (sd : schedule) (d : date) (dd : day_data) :
  In (Some (d, dd)) upds -> In d (Dict.keys (store_all upds sd)).
Proof.
  revert sd. induction upds as [|upd upds IH]; intros sd; [intros []|].
  intros [->|Hin].
  - apply (store_all_keys upds (store (Some (d, dd)) sd)).
    simpl. apply keys_set. now left.
  - apply (IH (store upd sd) Hin).
Qed.

Lemma store_all_same_keys (upds : list (option (date * day_data)))
    (sd : schedule) :
  (forall d dd, In (Some (d, dd)) upds -> In d (Dict.keys sd)) ->
  Dict.keys (store_all upds sd) = Dict.keys sd.
Proof.
  revert sd. induction upds as [|upd upds IH]; intros sd Hall; [reflexivity|].
  change (store_all (upd :: upds) sd) with (store_all upds (store upd sd)).
  assert (Hk : Dict.keys (store upd sd) = Dict.keys sd).
  { destruct upd as [[d dd]|]; [|reflexivity]. simpl.
    apply keys_set_old. apply (Hall d dd). now left. }
  rewrite IH, Hk; [reflexivity|].
  intros d dd Hin. rewrite Hk. apply (Hall d dd). now right.
Qed.

Lemma store_all_wf (upds : list (option (date * day_data))) (sd : schedule) :
  Dict.wf sd -> Dict.wf (store_all upds sd).
Proof.
  revert sd. induction upds as [|upd upds IH]; intros sd Hwf; [exact Hwf|].
  apply (IH (store upd sd)). destruct upd as [[d dd]|]; [|exact Hwf].
  now apply wf_set.
Qed.

(** Two dictionaries with the same keys in the same order and the same value
    under every key are the same. *)
Lemma dict_ext {V : Type} (a b : Dict.t Z V) :
  Dict.wf a -> Dict.keys a = Dict.keys b ->
  (forall k, Dict.get k a = Dict.get k b) -> a = b.
Proof.
  revert b. induction a as [|[k v] a IH]; intros [|[k' v'] b] Hwf Hk Hg;
    try discriminate; [reflexivity|].
  simpl in Hk. injection Hk as <- Hk.
  inversion Hwf as [|? ? Hnin Hwf']; subst.
  pose proof (Hg k) as Hgk. simpl in Hgk.
  rewrite Z.eqb_refl in Hgk. injection Hgk as <-. f_equal. apply IH; [exact Hwf' | exact Hk|].
  intros k0. specialize (Hg k0). simpl in Hg.
  destruct (Z.eqb_spec k0 k) as [E|ne]; [|exact Hg]. subst k0.
  transitivity (@None V).
  - now apply get_None.
  - symmetry. apply get_None. now rewrite <- Hk.
Qed.

(** X9.  Parsing the same document a second time changes nothing: when a
    parse turned a table with distinct dates into [sd1], parsing the document
    again on top of [sd1] gives [sd1] back, entries and order. *)
Theorem parse_again_changes_nothing (U : ucd) (soup : node)
    (sd0 sd1 : schedule) :
  Dict.wf sd0 ->
  parse_schedule U soup sd0 = inr sd1 ->
  parse_schedule U soup sd1 = inr sd1.
Proof.
  intros Hwf H1.
  destruct (parse_schedule_updates_any U soup sd0 sd1 H1) as (upds & Hupds).
  rewrite Hupds in H1. injection H1 as <-. rewrite Hupds. f_equal.
  apply dict_ext.
  - now apply store_all_wf, store_all_wf.
  - apply store_all_same_keys. intros d dd Hin.
    now apply store_all_written with dd.
  - intros d.
    pose proof (store_all_get upds (store_all upds sd0) d) as H2.
    pose proof (store_all_get upds sd0 d) as H1.
    etransitivity; [exact H2|]. etransitivity; [|symmetry; exact H1].
    match goal with |- context [match ?g with _ => _ end] => destruct g end;
      [reflexivity | exact H1].
Qed.

Lemma parse_again_changes_nothing_witness :
  parse_schedule latin1 soup_deutsch (schedule_data st_reloaded)
  = inr (schedule_data st_reloaded).
Proof.
  apply (parse_again_changes_nothing latin1 soup_deutsch (schedule_data st_mathe)).
  - constructor; [intros [] | constructor].
  - reflexivity.
Defined.

Lemma parse_row_entry (U : ucd) (sd sd' : schedule) (row : node) (d : date)
    (dd : day_data) :
  parse_row U sd row = inr sd' -> In (d, dd) sd' ->
  In (d, dd) sd \/ stored_by U row d dd.
Proof.
  intros Hrow Hin.
  destruct (parse_row_outcome U sd row) as (sd1 & H1 & Hout).
  rewrite Hrow in H1. injection H1 as <-.
  destruct Hout as [ | | | | c0 c1 rest g1 g2 d0 ds Hc Hm Hd Hl Hne Hg];
    try (now left).
  apply set_In in Hin. destruct Hin as [E|Hin]; [|now left].
  injection E as -> ->. right. exists c0, c1, rest, g1, g2. simpl. auto 7.
Qed.

Lemma parse_rows_entry (U : ucd) (rows : list node) (sd sd' : schedule)
    (d : date) (dd : day_data) :
  parse_rows U sd rows = inr sd' -> In (d, dd) sd' ->
  In (d, dd) sd \/ exists row, In row rows /\ stored_by U row d dd.
Proof.
  revert sd. induction rows as [|row rows IH]; intros sd; simpl.
  - intros [= <-] Hin. now left.
  - destruct (parse_row U sd row) as [e|sd1] eqn:E1; [discriminate|]. simpl.
    intros Hrest Hin. destruct (IH sd1 Hrest Hin) as [Hin1|(r & Hr & Hs)].
    + destruct (parse_row_entry U sd sd1 row d dd E1 Hin1) as [H0|Hs];
        [now left|]. right. exists row. split; [now left | exact Hs].
    + right. exists r. split; [now right | exact Hs].
Qed.

(** Every entry of the table after a parse was there before or is written
    by a row of the first table of the document. *)
Lemma parse_schedule_entry (U : ucd) (soup : node) (sd sd' : schedule)
    (d : date) (dd : day_data) :
  parse_schedule U soup sd = inr sd' -> In (d, dd) sd' ->
  In (d, dd) sd
  \/ exists table row,
       find "table" soup = Some table
       /\ In row (find_all ["tr"%string] table)
       /\ stored_by U row d dd.
Proof.
  unfold parse_schedule.
  destruct (find "table" soup) as [table|]; [|discriminate].
  rewrite data_rows_of_filter. simpl. intros Hp Hin.
  destruct (parse_rows_entry U _ _ _ _ _ Hp Hin) as [H0|(row & Hr & Hs)];
    [now left|].
  right. exists table, row. apply filter_In in Hr. tauto.
Qed.

Lemma school_year_bounds :
  date_new 2025 8 1 = Some school_year_first
  /\ date_new 2026 7 31 = Some school_year_last.
Proof. split; reflexivity. Qed.

Lemma date_new_school_year (m day : Z) (d : date) :
  1 <= m <= 12 ->
  date_new (year_of m) m day = Some d ->
  1 <= day <= days_in_month (year_of m) m
  /\ d = ymd2ord (year_of m) m day
  /\ school_year_first <= d <= school_year_last.
Proof.
  intros Hm. unfold date_new.
  destruct ((1 <=? year_of m) && (year_of m <=? 9999) && (1 <=? m)
            && (m <=? 12) && (1 <=? day)
            && (day <=? days_in_month (year_of m) m)) eqn:E; [|discriminate].
  intros [= <-].
  repeat (apply andb_true_iff in E; destruct E as [E ?]).
  assert (Hday : 1 <= day <= days_in_month (year_of m) m) by lia.
  split; [exact Hday|]. split; [reflexivity|].
  unfold school_year_first, school_year_last.
  assert (Hcases : m = 1 \/ m = 2 \/ m = 3 \/ m = 4 \/ m = 5 \/ m = 6 \/ m = 7
                   \/ m = 8 \/ m = 9 \/ m = 10 \/ m = 11 \/ m = 12) by lia.
  clear - Hday Hcases.
  repeat (destruct Hcases as [->|Hcases]); try subst m;
    revert Hday; unfold ymd2ord;
    match goal with
    | |- context [days_in_month ?y ?m] =>
        let v := eval vm_compute in (days_in_month y m) in
        change (days_in_month y m) with v
    end;
    match goal with
    | |- context [days_before_year ?y + days_before_month ?y ?m] =>
        let a := eval vm_compute in (days_before_year y) in
        let b := eval vm_compute in (days_before_month y m) in
        change (days_before_year y) with a;
        change (days_before_month y m) with b
    end; lia.
Qed.

(** X10.  Every date a parse puts into the table is a real calendar date of
    the school year 2025/2026: it is the day [day] of a month [m] in 1..12
    with [day] within the month, of 2025 from August on and of 2026 before,
    so it lies between 1 August 2025 and 31 July 2026. *)
Theorem parsed_dates_in_school_year (U : ucd) (soup : node)
    (sd sd' : schedule) (d : date) :
  parse_schedule U soup sd = inr sd' ->
  In d (Dict.keys sd') ->
  In d (Dict.keys sd)
  \/ (exists m day,
        1 <= m <= 12
        /\ 1 <= day <= days_in_month (year_of m) m
        /\ (8 <= m /\ year_of m = 2025 \/ m < 8 /\ year_of m = 2026)
        /\ date_new (year_of m) m day = Some d
        /\ d = ymd2ord (year_of m) m day
        /\ school_year_first <= d <= school_year_last).
Proof.
  intros Hp Hd. apply in_map_iff in Hd. destruct Hd as ([d0 dd] & E & Hin).
  simpl in E. subst d0.
  destruct (parse_schedule_entry U soup sd sd' d dd Hp Hin)
    as [H0|(table & row & _ & _ & c0 & c1 & rest & g1 & g2 & _ & _ & Hnew & _)].
  - left. change d with (fst (d, dd)). now apply in_map.
  - right. pose proof (month_of_range (lower U g2)) as Hm.
    destruct (date_new_school_year _ _ _ Hm Hnew) as (Hday & Hord & Hrange).
    exists (month_of (lower U g2)), (int_of U g1).
    repeat (split; [assumption|]). split; [|auto].
    unfold year_of. destruct (Z.leb_spec 8 (month_of (lower U g2))); auto.
Qed.

Lemma parsed_dates_in_school_year_witness :
  school_year_first <= sep_2 <= school_year_last.
Proof.
  destruct (parsed_dates_in_school_year latin1 soup_mathe Dict.empty
              (schedule_data st_mathe) sep_2 eq_refl (or_introl eq_refl))
    as [[]|(m & day & _ & _ & _ & _ & _ & Hrange)].
  exact Hrange.
Defined.

(** Every entry of the table after a parse was there before or is written
    by a row of the first table of the document that passes the data-row
    test. *)
Lemma parse_schedule_entry_row (U : ucd) (soup : node) (sd sd' : schedule)
    (d : date) (dd : day_data) :
  parse_schedule U soup sd = inr sd' -> In (d, dd) sd' ->
  In (d, dd) sd
  \/ exists table row,
       find "table" soup = Some table
       /\ In row (find_all ["tr"%string] table)
       /\ data_row_test U row = true
       /\ stored_by U row d dd.
Proof.
  unfold parse_schedule.
  destruct (find "table" soup) as [table|]; [|discriminate].
  rewrite data_rows_of_filter. simpl. intros Hp Hin.
  destruct (parse_rows_entry U _ _ _ _ _ Hp Hin) as [H0|(row & Hr & Hs)];
    [now left|].
  right. exists table, row. apply filter_In in Hr. tauto.
Qed.

Lemma sorted_lt_NoDup (l : list Z) : StronglySorted Z.lt l -> NoDup l.
Proof.
  induction 1 as [|x l _ IH Hx]; constructor; [|exact IH].
  rewrite Forall_forall in Hx. intros Hin. specialize (Hx x Hin). lia.
Qed.

(** X11.  What a parse stores for a day.  Every entry a parse writes comes
    from a row of the document's table that passes the data-row test and
    whose first cell gives the entry's date; the label is the row's second
    cell, trimmed, and the lessons are those of the columns 2 to 11 of that
    row, column [i] giving period [i - 1]: the periods lie in 1..10 and
    stand in ascending order, and a period is stored with a subject exactly
    when the first non-blank line of its cell, trimmed, is that subject and
    no ignored label; a stored subject is a non-empty single line without
    white space at its ends. *)
Theorem parsed_days_are_tidy (U : ucd) (soup : node) (sd sd' : schedule)
    (d : date) (dd : day_data) :
  parse_schedule U soup sd = inr sd' ->
  In (d, dd) sd' ->
  In (d, dd) sd
  \/ exists table row c0 c1 rest g1 g2,
       find "table" soup = Some table
       /\ In row (find_all ["tr"%string] table)
       /\ data_row_test U row = true
       /\ find_all cell_names row = c0 :: c1 :: rest
       /\ match_date U (strip U (get_text c0)) = Some (g1, g2)
       /\ date_new (year_of (month_of (lower U g2)))
                   (month_of (lower U g2)) (int_of U g1) = Some d
       /\ day dd = strip U (get_text c1)
       /\ subjects dd
          = flat_map (cell_subject U (find_all cell_names row)) (seq 2 10)
       /\ (forall p s, In (p, s) (subjects dd) ->
             exists i c before line after,
               p = Z.of_nat i - 1 /\ (2 <= i <= 11)%nat
               /\ nth_error (find_all cell_names row) i = Some c
               /\ split_lines (strip U (get_text c))
                  = before ++ line :: after
               /\ Forall (fun l => strip U l = []) before
               /\ s = strip U line)
       /\ (forall i c before line after,
             (2 <= i <= 11)%nat ->
             nth_error (find_all cell_names row) i = Some c ->
             split_lines (strip U (get_text c)) = before ++ line :: after ->
             Forall (fun l => strip U l = []) before ->
             strip U line <> [] ->
             ~ In (strip U line) ignore_subjects ->
             Dict.get (Z.of_nat i - 1) (subjects dd) = Some (strip U line))
       /\ subjects dd <> []
       /\ StronglySorted Z.lt (Dict.keys (subjects dd))
       /\ (forall p s, In (p, s) (subjects dd) ->
             1 <= p <= 10 /\ trimmed U s /\ ~ In s ignore_subjects).
Proof.
  intros Hp Hin.
  destruct (parse_schedule_entry_row U soup sd sd' d dd Hp Hin)
    as [H0|(table & row & Hfind & Hrow & Htest & c0 & c1 & rest & g1 & g2
            & Hcells & Hmatch & Hnew & Hl & Hday & Hne)]; [now left|].
  right.
  rewrite (subject_loop_closed U (find_all cell_names row) 10 2 Dict.empty)
    in Hl by (intros p []).
  injection Hl as Hl.
  change (flat_map (cell_subject U (find_all cell_names row)) (seq 2 10)
          = subjects dd) in Hl.
  destruct (cell_subjects_sorted U (find_all cell_names row) 10 2) as [Hs Hr].
  rewrite Hl in Hs, Hr.
  exists table, row, c0, c1, rest, g1, g2.
  repeat (split; [assumption || (now symmetry)|]).
  split; [|split; [|split; [exact Hne|split; [exact Hs|]]]].
  - intros p s Hps. rewrite <- Hl in Hps. apply in_flat_map in Hps.
    destruct Hps as (i & Hi & Hcell). apply in_seq in Hi.
    unfold cell_subject in Hcell.
    destruct (nth_error (find_all cell_names row) i) as [c|] eqn:Ec;
      [|destruct Hcell].
    destruct (subject_lines_of U (strip U (get_text c))) as [|first more] eqn:El;
      [destruct Hcell|].
    destruct (mem first ignore_subjects); [destruct Hcell|].
    destruct Hcell as [[= <- <-]|[]].
    destruct (subject_lines_first U _ _ _ El)
      as (before & line & after & Hsplit & Hblank & Hfirst & _).
    exists i, c, before, line, after.
    repeat split; try assumption; lia.
  - intros i c before line after Hi Hc Hsplit Hblank Hnb Hnig.
    apply In_get; [now apply sorted_lt_NoDup|].
    rewrite <- Hl. apply in_flat_map. exists i. split; [apply in_seq; lia|].
    unfold cell_subject. rewrite Hc.
    destruct (first_subject_line U _ _ _ _ Hsplit Hblank Hnb) as (more & ->).
    destruct (mem (strip U line) ignore_subjects) eqn:Em; [|now left].
    apply mem_In in Em. contradiction.
  - intros p s Hps. split.
    + assert (Hk : In p (Dict.keys (subjects dd)))
        by (change p with (fst (p, s)); now apply in_map).
      specialize (Hr p Hk). simpl in Hr. lia.
    + rewrite <- Hl in Hps. apply in_flat_map in Hps.
      destruct Hps as (i & _ & Hi). now apply cell_subject_good in Hi.
Qed.

Lemma parsed_days_are_tidy_witness :
  StronglySorted Z.lt (Dict.keys [(1, lit "Mathe")])
  /\ (forall p s, In (p, s) [(1, lit "Mathe")] ->
        1 <= p <= 10 /\ trimmed latin1 s /\ ~ In s ignore_subjects)
  /\ exists row c0 c1 rest,
       In row (find_all ["tr"%string] (Tag "table" [header_row; row_mathe]))
       /\ find_all cell_names row = c0 :: c1 :: rest
       /\ lit "Di" = strip latin1 (get_text c1)
       /\ [(1, lit "Mathe")]
          = flat_map (cell_subject latin1 (find_all cell_names row)) (seq 2 10).
Proof.
  destruct (parsed_days_are_tidy latin1 soup_mathe Dict.empty
              (schedule_data st_mathe) sep_2
              (DayData (lit "Di") [(1, lit "Mathe")]) eq_refl
              (or_introl eq_refl))
    as [[]|(table & row & c0 & c1 & rest & g1 & g2
            & Hfind & Hrow & _ & Hcells & _ & _ & Hday & Hsub & _ & _
            & _ & Hs & Hall)].
  split; [exact Hs|]. split; [exact Hall|].
  injection Hfind as <-.
  exists row, c0, c1, rest. repeat split; assumption.
Defined.

(** ** The date pattern *)

Section PatternFacts.
Variable U : ucd.

Lemma span_spec (p : N -> bool) (s a b : pystr) :
  span p s = (a, b) ->
  s = a ++ b /\ Forall (fun c => p c = true) a
  /\ (b = [] \/ exists c r, b = c :: r /\ p c = false).
Proof.
  revert a b. induction s as [|c s IH]; simpl; intros a b.
  - intros [= <- <-]. split; [reflexivity|]. split; [constructor | now left].
  - destruct (p c) eqn:E.
    + destruct (span p s) as [a' b'] eqn:Es. intros [= <- <-].
      destruct (IH a' b' eq_refl) as (-> & Hall & Hb).
      split; [reflexivity|]. split; [now constructor | exact Hb].
    + intros [= <- <-]. split; [reflexivity|]. split; [constructor|].
      right. now exists c, s.
Qed.

Lemma match_word_sound (s w : pystr) :
  match_word U s = Some w ->
  exists rest, s = w ++ rest /\ w <> []
               /\ Forall (fun c => isword U c = true) w
               /\ (rest = [] \/ exists c r, rest = c :: r /\ isword U c = false).
Proof.
  unfold match_word. destruct (span (isword U) s) as [a b] eqn:E. simpl.
  destruct (span_spec _ _ _ _ E) as (Hs & Hall & Hb).
  destruct a as [|c a]; [discriminate|]. intros [= <-].
  exists b. repeat split; try assumption. discriminate.
Qed.

Lemma match_word_complete (c : N) (s : pystr) :
  isword U c = true -> match_word U (c :: s) <> None.
Proof.
  intros Hc. unfold match_word. simpl. rewrite Hc.
  destruct (span (isword U) s). simpl. discriminate.
Qed.

Lemma match_spaces_word_sound (s w : pystr) :
  match_spaces_word U s = Some w ->
  exists sp rest, s = sp ++ w ++ rest
                  /\ Forall (fun c => isspace U c = true) sp
                  /\ w <> [] /\ Forall (fun c => isword U c = true) w
                  /\ (rest = [] \/ exists c r, rest = c :: r /\ isword U c = false).
Proof.
  assert (Hword : forall s, match_word U s = Some w ->
            exists sp rest, s = sp ++ w ++ rest
              /\ Forall (fun c => isspace U c = true) sp
              /\ w <> [] /\ Forall (fun c => isword U c = true) w
              /\ (rest = [] \/ exists c r, rest = c :: r /\ isword U c = false)).
  { intros s0 H. destruct (match_word_sound _ _ H) as (rest & -> & H1 & H2 & H3).
    exists [], rest. repeat split; try assumption. constructor. }
  induction s as [|c s IH]; simpl; [apply Hword|].
  destruct (isspace U c) eqn:Ec; [|apply Hword].
  destruct (match_spaces_word U s) as [w'|]; [|apply Hword].
  intros [= ->].
  destruct (IH eq_refl) as (sp & rest & -> & Hsp & H1 & H2 & H3).
  exists (c :: sp), rest. repeat split; try assumption. now constructor.
Qed.

Lemma match_spaces_word_complete (sp : pystr) (c : N) (s : pystr) :
  Forall (fun c => isspace U c = true) sp -> isword U c = true ->
  match_spaces_word U (sp ++ c :: s) <> None.
Proof.
  intros Hsp Hc. induction Hsp as [|x sp Hx _ IH]; simpl.
  - destruct (isspace U c); [|now apply match_word_complete].
    destruct (match_spaces_word U s); [discriminate|].
    now apply match_word_complete.
  - rewrite Hx. destruct (match_spaces_word U (sp ++ c :: s)); [discriminate|].
    now elim IH.
Qed.

Lemma match_dot_rest_sound (s w : pystr) :
  match_dot_rest U s = Some w ->
  exists sp rest, s = 46%N :: sp ++ w ++ rest
                  /\ Forall (fun c => isspace U c = true) sp
                  /\ w <> [] /\ Forall (fun c => isword U c = true) w
                  /\ (rest = [] \/ exists c r, rest = c :: r /\ isword U c = false).
Proof.
  destruct s as [|c s]; simpl; [discriminate|].
  destruct (N.eqb_spec c 46) as [->|ne]; [|discriminate].
  intros H. destruct (match_spaces_word_sound _ _ H) as (sp & rest & -> & Hrest).
  now exists sp, rest.
Qed.

Lemma int_of_digits (c1 : N) (g : pystr) :
  (forall c v, decimal U c = Some v -> 0 <= v <= 9) ->
  g = [c1] \/ (exists c2, g = [c1; c2]) ->
  0 <= int_of U g <= 99.
Proof.
  intros Hdec Hg.
  assert (Hv : forall c, 0 <= match decimal U c with Some v => v | None => 0 end <= 9).
  { intros c. destruct (decimal U c) eqn:E; [now apply Hdec with c | lia]. }
  unfold int_of. destruct Hg as [->|(c2 & ->)]; cbn [fold_left].
  - specialize (Hv c1). lia.
  - pose proof (Hv c1). pose proof (Hv c2). lia.
Qed.

End PatternFacts.

(** X12.  The date pattern.  [match_date] succeeds exactly on the texts
    that begin with one or two decimal digits, a dot, any white space and at
    least one word character.  Its groups are those digits and the whole run
    of word characters that follows the white space, and the day read from the
    first group lies in 0..99 when the digit values are 0..9. *)
Theorem match_date_reads_day_dot_word (U : ucd) (s : pystr) :
  (forall g1 g2,
     match_date U s = Some (g1, g2) ->
     exists sp rest,
       date_shaped U s g1 sp g2 rest
       /\ (rest = [] \/ exists c r, rest = c :: r /\ isword U c = false)
       /\ ((forall c v, decimal U c = Some v -> 0 <= v <= 9) ->
           0 <= int_of U g1 <= 99))
  /\ (forall g1 sp g2 rest,
        date_shaped U s g1 sp g2 rest -> match_date U s <> None).
Proof.
  split.
  - intros g1 g2. unfold match_date.
    destruct s as [|d1 s1]; [discriminate|].
    destruct (isdigit U d1) eqn:E1; [|discriminate].
    assert (Hone : match match_dot_rest U s1 with
                   | Some w => Some ([d1], w)
                   | None => None
                   end = Some (g1, g2) ->
                   exists sp rest,
                     date_shaped U (d1 :: s1) g1 sp g2 rest
                     /\ (rest = [] \/ exists c r, rest = c :: r /\ isword U c = false)
                     /\ ((forall c v, decimal U c = Some v -> 0 <= v <= 9) ->
                         0 <= int_of U g1 <= 99)).
    { destruct (match_dot_rest U s1) as [w|] eqn:Ew; [|discriminate].
      intros [= <- <-].
      destruct (match_dot_rest_sound U _ _ Ew) as (sp & rest & -> & Hsp & H1 & H2 & H3).
      exists sp, rest. split; [|split; [exact H3|]].
      - split; [reflexivity|]. split; [now left|].
        split; [repeat constructor; exact E1|]. auto.
      - intros Hdec. apply (int_of_digits U d1); [exact Hdec | now left]. }
    destruct s1 as [|d2 s2]; [exact Hone|].
    destruct (isdigit U d2) eqn:E2; [|exact Hone].
    destruct (match_dot_rest U s2) as [w|] eqn:Ew; [|exact Hone].
    intros [= <- <-].
    destruct (match_dot_rest_sound U _ _ Ew) as (sp & rest & -> & Hsp & H1 & H2 & H3).
    exists sp, rest. split; [|split; [exact H3|]].
    + split; [reflexivity|]. split; [now right|].
      split; [repeat constructor; assumption|]. auto.
    + intros Hdec. apply (int_of_digits U d1); [exact Hdec|]. right. now exists d2.
  - intros g1 sp g2 rest (-> & Hlen & Hdig & Hsp & Hne & Hword).
    destruct g2 as [|w g2]; [congruence|].
    inversion Hword as [|? ? Hw _]; subst.
    assert (Hrest : match_spaces_word U (sp ++ w :: g2 ++ rest) <> None)
      by now apply match_spaces_word_complete.
    change ((w :: g2) ++ rest) with (w :: g2 ++ rest).
    destruct g1 as [|d1 [|d2 [|d3 g1]]]; simpl in Hlen; try lia.
    + inversion Hdig as [|? ? Hd1 _]; subst.
      unfold match_date. cbn [app]. rewrite Hd1. cbv zeta.
      assert (Hone : match_dot_rest U (46%N :: sp ++ w :: g2 ++ rest) <> None)
        by (simpl; exact Hrest).
      destruct (match_dot_rest U (46%N :: sp ++ w :: g2 ++ rest)) as [w1|] eqn:E1;
        [|congruence].
      destruct (isdigit U 46); [|discriminate].
      destruct (match_dot_rest U (sp ++ w :: g2 ++ rest)); discriminate.
    + inversion Hdig as [|? ? Hd1 Hdig']; subst.
      inversion Hdig' as [|? ? Hd2 _]; subst.
      unfold match_date. cbn [app]. rewrite Hd1, Hd2. cbv zeta.
      assert (Htwo : match_dot_rest U (46%N :: sp ++ w :: g2 ++ rest) <> None)
        by (simpl; exact Hrest).
      destruct (match_dot_rest U (46%N :: sp ++ w :: g2 ++ rest)); [discriminate|].
      congruence.
Qed.

(** ** The summary line of a week *)











(** ** Select All and Deselect All *)

Lemma selected_after_set_all (b : bool) (week_vars : Dict.t date bool) :
  selected_weeks_of (map (fun item => (fst item, b)) week_vars)
  = if b then Dict.keys week_vars else [].
Proof.
  unfold selected_weeks_of, Dict.keys.
  induction week_vars as [|[m v] wv IH]; simpl; [now destruct b|].
  destruct b; simpl; [now f_equal | exact IH].
Qed.

(** X14.  Select All ticks every week and Deselect All none, whatever was
    ticked before: after Select All the export runs over all the weeks of
    [week_vars] in their order, after Deselect All over none (so the export
    reports "No weeks selected!" when a schedule is loaded).  Neither
    touches the table, the file or the list of weeks. *)
Theorem select_and_deselect_all (st : state) :
  selected_weeks_of (week_vars (select_all_weeks st)) = Dict.keys (week_vars st)
  /\ selected_weeks_of (week_vars (deselect_all_weeks st)) = []
  /\ Dict.keys (week_vars (select_all_weeks st)) = Dict.keys (week_vars st)
  /\ Dict.keys (week_vars (deselect_all_weeks st)) = Dict.keys (week_vars st)
  /\ schedule_data (select_all_weeks st) = schedule_data st
  /\ schedule_data (deselect_all_weeks st) = schedule_data st
  /\ select_all_weeks (deselect_all_weeks st) = select_all_weeks st
  /\ deselect_all_weeks (select_all_weeks st) = deselect_all_weeks st
  /\ (schedule_data st <> [] ->
      forall file_path written,
        generate_ics (deselect_all_weeks st) file_path written
        = inr [ShowError "No weeks selected!"]).
Proof.
  assert (Hkeys : forall b : bool, Dict.keys (map (fun item : date * bool => (fst item, b))
                                          (week_vars st))
                            = Dict.keys (week_vars st)).
  { intros b. unfold Dict.keys. rewrite map_map. reflexivity. }
  assert (Hmap : forall b b' : bool, map (fun item : date * bool => (fst item, b))
                                (map (fun item : date * bool => (fst item, b'))
                                     (week_vars st))
                              = map (fun item => (fst item, b)) (week_vars st)).
  { intros b b'. rewrite map_map. reflexivity. }
  unfold select_all_weeks, deselect_all_weeks, set_all_weeks. simpl.
  rewrite !selected_after_set_all, !Hkeys, !Hmap.
  repeat (split; [reflexivity|]).
  intros Hne file_path written. unfold generate_ics. simpl.
  destruct (schedule_data st); [congruence|].
  now rewrite selected_after_set_all.
Qed.
